(** * qdl: device acquisition and flash orchestration ([qdl.c])

    A shallow embedding of [qdl.c]: the descriptor classifier
    ([detect_type]), the sysfs scan ([readat], [find_qdl_tty]), the
    transport manager ([tty_open]) and the orchestrator ([main]).

    The program is sequential C that talks to the operating system, to
    libxml2 and to the protocol engines declared in [qdl.h] and [patch.h].
    It is modelled in a small monad over a machine state that holds the
    global [qdl_debug] and the history of externally visible actions.  What
    the outside world answers is a parameter ([Env]); every answer may
    depend on the whole machine state, hence on everything that happened
    before the call. *)

From Stdlib Require Import ZArith String Ascii List Bool Lia.
Import ListNotations.

Local Open Scope Z_scope.
Local Open Scope list_scope.

(** ** C strings

    A [string] of the model stands for a C string: the characters before
    the terminating NUL.  Buffers filled by [read] may hold a NUL and are
    cut with [c_str] before they are used as strings. *)

Module CString.

(** Characters that C writes with an escape. *)
Definition NUL : ascii := "000"%char.
Definition LF : ascii := "010"%char.
Definition CR : ascii := "013"%char.
Definition DQUOTE : ascii := "034"%char.

Definition chr (c : ascii) : string := String c EmptyString.

(** The C string held by a buffer: the characters before the first NUL. *)
Fixpoint c_str (buf : string) : string :=
  match buf with
  | EmptyString => EmptyString
  | String c rest =>
      if Ascii.eqb c NUL then EmptyString else String c (c_str rest)
  end.

Fixpoint mem (c : ascii) (set : string) : bool :=
  match set with
  | EmptyString => false
  | String d rest => Ascii.eqb c d || mem c rest
  end.

(** [strcspn s reject]: length of the initial part of [s] that holds no
    character of [reject]. *)
Fixpoint strcspn (s reject : string) : nat :=
  match s with
  | EmptyString => O
  | String c rest => if mem c reject then O else S (strcspn rest reject)
  end.

(** [strcmp]: zero exactly on equal strings, the sign of the first
    difference otherwise. *)
Definition strcmp (a b : string) : Z :=
  match String.compare a b with
  | Eq => 0
  | Lt => -1
  | Gt => 1
  end.

(** [strncmp]: [strcmp] on the first [n] characters of both. *)
Definition strncmp (a b : string) (n : nat) : Z :=
  strcmp (substring 0 n a) (substring 0 n b).

(** [snprintf(buf, size, ...)] keeps at most [size - 1] characters of the
    formatted text.  This is [snprintf] for [size >= 1]; with [size = 0]
    the C function writes nothing, and no statement below is about that
    case: [qdl.c] calls it with [PATH_MAX]. *)
Definition snprintf (size : nat) (text : string) : string :=
  substring 0 (size - 1) text.

End CString.
Import CString.

(** ** Constants of the system headers (Linux) *)

Definition EINVAL : Z := 22.
Definition ENOENT : Z := 2.
Definition PATH_MAX : nat := 4096.
Definition NAME_MAX : nat := 255.

Definition B115200 : Z := 4098.        (* 0010002 *)
Definition CRTSCTS : Z := 2147483648.  (* 020000000000 *)
Definition CS8 : Z := 48.              (* 0000060 *)
Definition CLOCAL : Z := 2048.         (* 0004000 *)
Definition CREAD : Z := 128.           (* 0000200 *)
Definition IGNPAR : Z := 4.            (* 0000004 *)

(** [struct termios]. *)
Record termios : Type := mk_termios {
  c_iflag : Z;
  c_oflag : Z;
  c_cflag : Z;
  c_lflag : Z;
  c_line : Z;
  c_cc : list Z;
  c_ispeed : Z;
  c_ospeed : Z
}.

(** [memset(&tios, 0, sizeof(tios))]; [NCCS] is 32. *)
Definition zero_termios : termios :=
  mk_termios 0 0 0 0 0 (repeat 0 32) 0 0.

(** ** The file kinds of [qdl.c] *)

Definition QDL_FILE_UNKNOWN : Z := 0.
Definition QDL_FILE_PATCH : Z := 1.
Definition QDL_FILE_PROGRAM : Z := 2.
Definition QDL_FILE_CONTENTS : Z := 3.

(** ** Externally visible actions *)

Inductive event : Type :=
| XmlReadFile (file : string)            (* xmlReadFile(file, NULL, 0) *)
| PatchLoad (file : string)              (* patch_load(file) *)
| ProgramLoad (file : string)            (* program_load(file) *)
| Stderr (msg : string)                  (* fprintf(stderr), err, errx, warn *)
| Stdout (msg : string)                  (* printf followed by fflush(stdout) *)
| Sleep (seconds : Z)                    (* sleep(seconds) *)
| OpenDir (path : string)                (* open(path, O_DIRECTORY), fdopendir *)
| Readdir (name : string)                (* an entry handed out by readdir *)
| CloseDir (path : string)               (* closedir, close of the directory *)
| Open (path : string)                   (* open(path, O_RDWR|O_NOCTTY|O_EXCL) *)
| Tcgetattr (fd : Z)
| Tcflush (fd : Z)                       (* tcflush(fd, TCIFLUSH) *)
| Tcsetattr (fd : Z) (tios : termios)    (* tcsetattr(fd, TCSANOW, &tios) *)
| Close (fd : Z)                         (* close of the tty descriptor *)
| SaharaRun (fd : Z) (prog_mbn : string) (* sahara_run(fd, prog_mbn) *)
| FirehoseRun (fd : Z).                  (* firehose_run(fd) *)

(** The machine state: the global [qdl_debug], and the actions performed so
    far, newest first. *)
Record state : Type := mk_state {
  qdl_debug : bool;
  trace : list event
}.

Definition init : state := mk_state false [].

(** ** The outside world *)

(** An attribute file below a tty entry of sysfs, as [readat] meets it:
    [openat] fails, or [read] fails, or [read] delivers the file's bytes. *)
Inductive attr : Type :=
| NoAttr
| Unreadable
| Content (data : string).

(** One entry of [/sys/class/tty]: its name, whether
    [openat(tty, name, O_DIRECTORY)] succeeds, and the two attribute files
    reached through [../../../../]. *)
Record dirent : Type := mk_dirent {
  d_name : string;
  d_opens : bool;
  idVendor : attr;
  idProduct : attr
}.

(** What one scan of [/sys/class/tty] meets: [open] fails, [fdopendir]
    fails, or [readdir] hands out the entries in this order. *)
Inductive sysfs : Type :=
| NoSysfs
| NoDirStream
| Listing (entries : list dirent).

(** Answers of the operating system, of libxml2 and of the engines of
    [qdl.h] and [patch.h], which are not part of [qdl.c].  [xmlReadFile]
    answers [None] for a NULL document and otherwise the name of the root
    element of the parsed document. *)
Record Env : Type := mk_Env {
  progname : string;
  xmlReadFile : state -> string -> option string;
  patch_load : state -> string -> Z;
  program_load : state -> string -> Z;
  sys_class_tty : state -> sysfs;
  sys_open : state -> string -> Z;
  tcgetattr : state -> Z -> Z * termios;
  tcsetattr : state -> Z -> termios -> Z;
  sahara_run : state -> Z -> string -> Z;
  firehose_run : state -> Z -> Z
}.

(** ** The monad of the program *)

(** A computation returns to its caller, or ends the process ([exit],
    [err], [errx]), or is still waiting in the retry loop of [tty_open]
    when the fuel of the model runs out. *)
Inductive result (A : Type) : Type :=
| Ret (a : A)
| Exit (status : Z)
| Blocked.
Arguments Ret {A} a.
Arguments Exit {A} status.
Arguments Blocked {A}.

Definition M (A : Type) : Type := state -> result A * state.

Definition ret {A} (a : A) : M A := fun st => (Ret a, st).

Definition bind {A B} (m : M A) (k : A -> M B) : M B :=
  fun st =>
    match m st with
    | (Ret a, st') => k a st'
    | (Exit c, st') => (Exit c, st')
    | (Blocked, st') => (Blocked, st')
    end.

Declare Scope prog_scope.
Delimit Scope prog_scope with prog.
Notation "x <- m ;; k" := (bind m (fun x => k))
  (at level 61, m at next level, right associativity) : prog_scope.
Notation "' p <- m ;; k" := (bind m (fun x => let 'p := x in k))
  (at level 61, p pattern, m at next level, right associativity) : prog_scope.
Notation "m ;; k" := (bind m (fun _ => k))
  (at level 61, right associativity) : prog_scope.
Local Open Scope prog_scope.

Definition log (e : event) (st : state) : state :=
  mk_state (qdl_debug st) (e :: trace st).

(** An action without an answer. *)
Definition emit (e : event) : M unit := fun st => (Ret tt, log e st).

(** An action with an answer: the world answers from the state before the
    call, and the call is recorded. *)
Definition call {A} (e : event) (answer : state -> A) : M A :=
  fun st => (Ret (answer st), log e st).

Definition exit {A} (status : Z) : M A := fun st => (Exit status, st).

Definition blocked {A} : M A := fun st => (Blocked, st).

(** [err] and [errx] print a diagnostic and end the process; [warn] prints
    and goes on.  The program name in front and the text of [errno] behind
    the message are left out. *)
Definition err {A} (status : Z) (msg : string) : M A :=
  emit (Stderr msg) ;; exit status.
Definition errx {A} (status : Z) (msg : string) : M A :=
  emit (Stderr msg) ;; exit status.
Definition warn (msg : string) : M unit := emit (Stderr msg).

Definition set_qdl_debug (b : bool) : M unit :=
  fun st => (Ret tt, mk_state b (trace st)).

(** ** The program *)

Section Qdl.

Variable env : Env.

(** [detect_type]: the result is a file kind, or [-EINVAL] when the file
    does not parse.  The parsed document is freed after the root name has
    been compared; freeing is not an action of the model. *)
Definition detect_type (xml_file : string) : M Z :=
  doc <- call (XmlReadFile xml_file) (fun st => xmlReadFile env st xml_file) ;;
  match doc with
  | None =>
      emit (Stderr ("[PATCH] failed to parse " ++ xml_file ++ chr LF)%string) ;;
      ret (- EINVAL)
  | Some root_name =>
      ret (if strcmp root_name "patches" =? 0 then QDL_FILE_PATCH
           else if strcmp root_name "data" =? 0 then QDL_FILE_PROGRAM
           else if strcmp root_name "contents" =? 0 then QDL_FILE_CONTENTS
           else QDL_FILE_UNKNOWN)
  end.

(** What [readat] leaves in [buf] when [read] succeeds on a file holding
    [data]: [read] delivers at most [len - 1] bytes, a NUL is put behind
    them, and the string is cut at its first newline. *)
Definition read_token (len : nat) (data : string) : string :=
  let buf := c_str (substring 0 (len - 1) data) in
  substring 0 (strcspn buf (chr LF)) buf.

(** [readat(dir, name, buf, len)]: the result code and the C string left in
    [buf].  [file] is what [openat(dir, name, O_RDONLY)] reaches.  On
    failure the caller does not use [buf]. *)
Definition readat (file : attr) (name : string) (len : nat) : M (Z * string) :=
  match file with
  | NoAttr => ret (-1, EmptyString)
  | Unreadable =>
      warn ("failed to read " ++ name)%string ;;
      ret (- EINVAL, EmptyString)
  | Content data => ret (0, read_token len data)
  end.

(** The body of the [readdir] loop of [find_qdl_tty], on the locals
    [found] and [dev_name].  [vid] and [pid] are compared only after both
    [readat] calls of the same round have filled them, so they are local to
    a round here. *)
Definition scan_entry (dev_name_len : nat) (de : dirent) (v : Z * string)
  : M (Z * string) :=
  emit (Readdir (d_name de)) ;;
  if negb (strncmp (d_name de) "ttyUSB" 6 =? 0) then ret v
  else if negb (d_opens de) then ret v
  else
    '(r, vid) <- readat (idVendor de) "../../../../idVendor" 5 ;;
    if r <? 0 then ret v
    else
      '(r, pid) <- readat (idProduct de) "../../../../idProduct" 5 ;;
      if r <? 0 then ret v
      else if negb (strcmp vid "05c6" =? 0) || negb (strcmp pid "9008" =? 0)
      then ret v
      else ret (0, snprintf dev_name_len ("/dev/" ++ d_name de)%string).

Fixpoint scan (dev_name_len : nat) (entries : list dirent) (v : Z * string)
  : M (Z * string) :=
  match entries with
  | [] => ret v
  | de :: rest =>
      v' <- scan_entry dev_name_len de v ;;
      scan dev_name_len rest v'
  end.

(** [find_qdl_tty(dev_name, dev_name_len)]: the result code and the
    contents of [dev_name] afterwards. *)
Definition find_qdl_tty (dev_name : string) (dev_name_len : nat)
  : M (Z * string) :=
  tty <- call (OpenDir "/sys/class/tty") (fun st => sys_class_tty env st) ;;
  match tty with
  | NoSysfs => err 1 "failed to open /sys/class/tty"
  | NoDirStream => err 1 "failed to opendir /sys/class/tty"
  | Listing entries =>
      v <- scan dev_name_len entries (- ENOENT, dev_name) ;;
      emit (CloseDir "/sys/class/tty") ;;
      ret v
  end.

(** The line configuration that [tty_open] installs. *)
Definition qdl_tios : termios :=
  let t := zero_termios in
  let t := mk_termios (c_iflag t) (c_oflag t)
             (Z.lor (Z.lor (Z.lor (Z.lor B115200 CRTSCTS) CS8) CLOCAL) CREAD)
             (c_lflag t) (c_line t) (c_cc t) (c_ispeed t) (c_ospeed t) in
  let t := mk_termios IGNPAR (c_oflag t) (c_cflag t)
             (c_lflag t) (c_line t) (c_cc t) (c_ispeed t) (c_ospeed t) in
  mk_termios (c_iflag t) 0 (c_cflag t)
    (c_lflag t) (c_line t) (c_cc t) (c_ispeed t) (c_ospeed t).

(** [tty_open] below the retry loop: open the device node that the scan
    left in [path], save its line configuration and install [qdl_tios].
    The result is the descriptor together with the configuration stored
    through [old]. *)
Definition tty_setup (path : string) : M (Z * termios) :=
  fd <- call (Open path) (fun st => sys_open env st path) ;;
  if fd <? 0 then
    err 1 ("unable to open " ++ chr DQUOTE ++ path ++ chr DQUOTE)%string
  else
    '(r, old) <- call (Tcgetattr fd) (fun st => tcgetattr env st fd) ;;
    if r <? 0 then
      err 1 ("unable to retrieve " ++ chr DQUOTE ++ path ++ chr DQUOTE
             ++ " tios")%string
    else
      emit (Tcflush fd) ;;
      r <- call (Tcsetattr fd qdl_tios)
             (fun st => tcsetattr env st fd qdl_tios) ;;
      if r <? 0 then
        err 1 ("unable to update " ++ chr DQUOTE ++ path ++ chr DQUOTE
               ++ " tios")%string
      else ret (fd, old).

(** [tty_open(old)].  One unit of fuel is one pass through the label
    [retry]; [path] is the local buffer, kept from one pass to the next. *)
Fixpoint tty_open (fuel : nat) (path : string) : M (Z * termios) :=
  match fuel with
  | O => blocked
  | S fuel' =>
      '(r, path) <- find_qdl_tty path PATH_MAX ;;
      if r <? 0 then
        emit (Stdout ("Waiting for QDL tty..." ++ chr CR)%string) ;;
        emit (Sleep 1) ;;
        tty_open fuel' path
      else tty_setup path
  end.

(** The body of the loop over the descriptor files in [main]. *)
Definition load_file (file : string) : M unit :=
  type <- detect_type file ;;
  if (type <? 0) || (type =? QDL_FILE_UNKNOWN) then
    errx 1 ("failed to detect file type of " ++ file ++ chr LF)%string
  else if type =? QDL_FILE_PATCH then
    r <- call (PatchLoad file) (fun st => patch_load env st file) ;;
    if r <? 0 then errx 1 ("patch_load " ++ file ++ " failed")%string
    else ret tt
  else if type =? QDL_FILE_PROGRAM then
    r <- call (ProgramLoad file) (fun st => program_load env st file) ;;
    if r <? 0 then errx 1 ("program_load " ++ file ++ " failed")%string
    else ret tt
  else
    errx 1 (file ++ " type not yet supported")%string.

(** [for (i = 2; i < argc; i++)], on [argv[2]], [argv[3]], ... *)
Fixpoint load_files (files : list string) : M unit :=
  match files with
  | [] => ret tt
  | file :: rest => load_file file ;; load_files rest
  end.

(** [main(argc, argv)], with [argc] the length of [argv].  What [main]
    returns is the exit status of the process. *)
Definition main (fuel : nat) (argv : list string) : M Z :=
  argv <- (if (2 <=? Z.of_nat (length argv))
              && (strcmp (nth 1 argv EmptyString) "--debug" =? 0)
           then set_qdl_debug true ;; ret (tl argv)
           else ret argv) ;;
  if Z.of_nat (length argv) <? 3 then
    emit (Stderr (progname env ++ " <prog.mbn> [<program> <patch> ...]"
                  ++ chr LF)%string) ;;
    ret 1
  else
    let prog_mbn := nth 1 argv EmptyString in
    load_files (skipn 2 argv) ;;
    '(fd, tios) <- tty_open fuel EmptyString ;;
    (if fd <? 0 then err 1 "failed to open QDL tty" else ret tt) ;;
    r <- call (SaharaRun fd prog_mbn) (fun st => sahara_run env st fd prog_mbn) ;;
    (if r <? 0 then ret tt
     else r <- call (FirehoseRun fd) (fun st => firehose_run env st fd) ;;
          ret tt) ;;
    r <- call (Tcsetattr fd tios) (fun st => tcsetattr env st fd tios) ;;
    (if r <? 0 then warn "unable to restore tios of ttyUSB1" else ret tt) ;;
    emit (Close fd) ;;
    ret 0.

End Qdl.

(** ** Reading a run *)

(** The exit status of the process, once it has ended. *)
Definition exit_status {A} (r : result Z * A) : option Z :=
  match fst r with
  | Ret status => Some status
  | Exit status => Some status
  | Blocked => None
  end.

(** The command line as [main] reads it: whether [--debug] leads, the
    arguments after the shift, the firmware image and the descriptor
    files. *)
Definition has_debug (argv : list string) : bool :=
  (2 <=? Z.of_nat (length argv))
  && (strcmp (nth 1 argv EmptyString) "--debug" =? 0).

Definition shifted (argv : list string) : list string :=
  if has_debug argv then tl argv else argv.

Definition usage_ok (argv : list string) : bool :=
  negb (Z.of_nat (length (shifted argv)) <? 3).

Definition prog_mbn_of (argv : list string) : string :=
  nth 1 (shifted argv) EmptyString.

Definition descriptor_files (argv : list string) : list string :=
  skipn 2 (shifted argv).

(** The state in which the first descriptor file is classified. *)
Definition start (argv : list string) : state :=
  mk_state (has_debug argv) [].

(** The usage line of [main]. *)
Definition usage (env : Env) : string :=
  progname env ++ " <prog.mbn> [<program> <patch> ...]" ++ chr LF.

(** The notice of the retry loop. *)
Definition waiting : event := Stdout ("Waiting for QDL tty..." ++ chr CR).

(** [main] from the return of [tty_open] on. *)
Definition run_engines (env : Env) (prog_mbn : string) (fd : Z)
           (tios : termios) : M Z :=
  (if fd <? 0 then err 1 "failed to open QDL tty" else ret tt) ;;
  r <- call (SaharaRun fd prog_mbn) (fun st => sahara_run env st fd prog_mbn) ;;
  (if r <? 0 then ret tt
   else r <- call (FirehoseRun fd) (fun st => firehose_run env st fd) ;;
        ret tt) ;;
  r <- call (Tcsetattr fd tios) (fun st => tcsetattr env st fd tios) ;;
  (if r <? 0 then warn "unable to restore tios of ttyUSB1" else ret tt) ;;
  emit (Close fd) ;;
  ret 0.

(** ** Reading a trace *)

(** [st'] is [st] after the actions [evs], newest first. *)
Definition after (st : state) (evs : list event) (st' : state) : Prop :=
  trace st' = evs ++ trace st /\ qdl_debug st' = qdl_debug st.

(** The files of the [XmlReadFile] actions and of the loader actions of a
    trace, oldest first. *)
Definition classified (tr : list event) : list string :=
  flat_map (fun e => match e with XmlReadFile f => [f] | _ => [] end) (rev tr).

Definition loaded (tr : list event) : list string :=
  flat_map (fun e => match e with
                     | PatchLoad f | ProgramLoad f => [f]
                     | _ => []
                     end) (rev tr).

(** The names handed out by [readdir] in a trace, oldest first. *)
Definition visited (tr : list event) : list string :=
  flat_map (fun e => match e with Readdir n => [n] | _ => [] end) (rev tr).

(** Actions on the device side: the sysfs scan and everything done to the
    tty. *)
Definition device_event (e : event) : bool :=
  match e with
  | OpenDir _ | Readdir _ | CloseDir _ | Open _
  | Tcgetattr _ | Tcflush _ | Tcsetattr _ _ | Close _
  | SaharaRun _ _ | FirehoseRun _ => true
  | _ => false
  end.

(** How often a trace sleeps, and how often it prints the notice of the
    retry loop. *)
Definition sleeps (tr : list event) : nat :=
  length (filter (fun e => match e with Sleep _ => true | _ => false end) tr).

Definition notices (tr : list event) : nat :=
  length (filter (fun e => match e with
                           | Stdout msg =>
                               String.eqb msg ("Waiting for QDL tty..." ++ chr CR)
                           | _ => false
                           end) tr).

(** ** The scan, entry by entry *)

(** The token that [find_qdl_tty] reads from an attribute file, when the
    file can be resolved and read. *)
Definition token (file : attr) : option string :=
  match file with
  | Content data => Some (read_token 5 data)
  | _ => None
  end.

(** The entries that [find_qdl_tty] looks into: the name starts with
    [ttyUSB] and the directory opens. *)
Definition candidate (de : dirent) : bool :=
  String.prefix "ttyUSB" (d_name de) && d_opens de.

Definition token_is (file : attr) (expected : string) : bool :=
  match token file with
  | Some t => String.eqb t expected
  | None => false
  end.

(** A candidate both of whose tokens are the expected ones. *)
Definition matches (de : dirent) : bool :=
  candidate de
  && token_is (idVendor de) "05c6" && token_is (idProduct de) "9008".

(** What one round of the [readdir] loop makes of [found] and [dev_name],
    and what the whole loop makes of them. *)
Definition round (len : nat) (v : Z * string) (de : dirent) : Z * string :=
  if matches de then (0, snprintf len ("/dev/" ++ d_name de)) else v.

Definition rounds (len : nat) (entries : list dirent) (v : Z * string)
  : Z * string :=
  fold_left (round len) entries v.

(** ** Descriptor files that fail *)

(** A descriptor file that does not classify in state [st]: it does not
    parse, or its root element is none of the three known ones. *)
Definition fails_to_classify (env : Env) (st : state) (file : string) : Prop :=
  match xmlReadFile env st file with
  | None => True
  | Some root =>
      root <> "patches"%string /\ root <> "data"%string /\
      root <> "contents"%string
  end.

(** A descriptor file that classifies in state [st] and whose loader then
    answers a negative value. *)
Definition fails_to_load (env : Env) (st : state) (file : string) : Prop :=
  (xmlReadFile env st file = Some "patches"%string /\
   patch_load env (log (XmlReadFile file) st) file < 0)
  \/
  (xmlReadFile env st file = Some "data"%string /\
   program_load env (log (XmlReadFile file) st) file < 0).

(** ** The actions of each phase *)

(** What the loop over the descriptor files can do. *)
Inductive load_event : event -> Prop :=
| le_xml file : load_event (XmlReadFile file)
| le_patch file : load_event (PatchLoad file)
| le_program file : load_event (ProgramLoad file)
| le_parse file :
    load_event (Stderr ("[PATCH] failed to parse " ++ file ++ chr LF))
| le_detect file :
    load_event (Stderr ("failed to detect file type of " ++ file ++ chr LF))
| le_patch_failed file :
    load_event (Stderr ("patch_load " ++ file ++ " failed"))
| le_program_failed file :
    load_event (Stderr ("program_load " ++ file ++ " failed"))
| le_unsupported file :
    load_event (Stderr (file ++ " type not yet supported")).

(** What a scan of [/sys/class/tty] can do. *)
Inductive scan_event : event -> Prop :=
| sc_opendir : scan_event (OpenDir "/sys/class/tty")
| sc_readdir name : scan_event (Readdir name)
| sc_read_vendor :
    scan_event (Stderr "failed to read ../../../../idVendor")
| sc_read_product :
    scan_event (Stderr "failed to read ../../../../idProduct")
| sc_closedir : scan_event (CloseDir "/sys/class/tty")
| sc_no_sysfs : scan_event (Stderr "failed to open /sys/class/tty")
| sc_no_stream : scan_event (Stderr "failed to opendir /sys/class/tty").

(** What the scans and the waiting between them can do. *)
Inductive locate_event : event -> Prop :=
| lo_scan e : scan_event e -> locate_event e
| lo_notice : locate_event waiting
| lo_sleep : locate_event (Sleep 1).

(** What [tty_open] can do to the device node it has found. *)
Inductive open_event : event -> Prop :=
| op_open path : open_event (Open path)
| op_no_open path :
    open_event (Stderr ("unable to open " ++ chr DQUOTE ++ path ++ chr DQUOTE))
| op_get fd : open_event (Tcgetattr fd)
| op_no_get path :
    open_event (Stderr ("unable to retrieve " ++ chr DQUOTE ++ path
                        ++ chr DQUOTE ++ " tios"))
| op_flush fd : open_event (Tcflush fd)
| op_set fd : open_event (Tcsetattr fd qdl_tios)
| op_no_set path :
    open_event (Stderr ("unable to update " ++ chr DQUOTE ++ path
                        ++ chr DQUOTE ++ " tios")).

(** What a run can do before it holds the transport. *)
Definition early_event (env : Env) (e : event) : Prop :=
  e = Stderr (usage env) \/ load_event e \/ locate_event e \/ open_event e.

(** A computation all of whose actions are of one class. *)
Definition emits {A} (P : event -> Prop) (m : M A) : Prop :=
  forall st r st', m st = (r, st') ->
                   exists evs, after st evs st' /\ Forall P evs.

(** What is done to the line configuration and to the handle of the tty
    in a trace. *)
Definition line_event (e : event) : bool :=
  match e with
  | Tcsetattr _ _ | Close _ => true
  | _ => false
  end.

Definition line_events (tr : list event) : list event :=
  filter line_event tr.

(** A run gets hold of the transport: the command line passes, every
    descriptor file is classified and loaded, and [tty_open] returns the
    descriptor [fd] and the saved configuration [old] in state [st2]. *)
Definition acquired (env : Env) (fuel : nat) (argv : list string)
           (fd : Z) (old : termios) (st2 : state) : Prop :=
  usage_ok argv = true /\
  exists st1,
    load_files env (descriptor_files argv) (start argv) = (Ret tt, st1) /\
    tty_open env fuel EmptyString st1 = (Ret (fd, old), st2).

(** ** A concrete world

    Used to run the program on concrete inputs.  The descriptor files are
    told apart by name; an EDL device shows up as [ttyUSB1] once the
    program has slept [appears] times; the line configuration found on the
    tty is [cooked]; restoring a configuration other than [qdl_tios] answers
    [restore]. *)

Module World.

Definition cooked : termios :=
  mk_termios 1280 5 3261 35387 0 (repeat 0 32) 13 13.

Definition root_of (file : string) : option string :=
  if String.eqb file "rawprogram0.xml" then Some "data"%string
  else if String.eqb file "patch0.xml" then Some "patches"%string
  else if String.eqb file "broken_patch.xml" then Some "patches"%string
  else if String.eqb file "contents.xml" then Some "contents"%string
  else if String.eqb file "garbage.bin" then None
  else Some "configuration"%string.

Definition ttyS0 : dirent :=
  mk_dirent "ttyS0" true NoAttr NoAttr.
Definition ttyUSB0 : dirent :=
  mk_dirent "ttyUSB0" true (Content ("0403" ++ chr LF)) (Content ("6001" ++ chr LF)).
Definition ttyUSB1 : dirent :=
  mk_dirent "ttyUSB1" true (Content ("05c6" ++ chr LF)) (Content ("9008" ++ chr LF)).
Definition ttyUSB2 : dirent :=
  mk_dirent "ttyUSB2" true (Content ("05c6" ++ chr LF)) (Content ("9008" ++ chr LF)).
Definition ttyUSB3 : dirent :=
  mk_dirent "ttyUSB3" true (Content ("05c6" ++ chr LF)) Unreadable.

Definition ttyUSB4 : dirent :=
  mk_dirent "ttyUSB4" true (Content ("05C6" ++ chr LF)) (Content ("9008" ++ chr LF)).

Definition world (appears : nat) (sahara firehose restore : Z) : Env :=
  mk_Env "qdl"
    (fun _ file => root_of file)
    (fun _ file => if String.eqb file "broken_patch.xml" then -1 else 0)
    (fun _ _ => 0)
    (fun st => if Nat.leb appears (sleeps (trace st))
               then Listing [ttyS0; ttyUSB0; ttyUSB1]
               else Listing [ttyS0; ttyUSB0])
    (fun _ _ => 3)
    (fun _ _ => (0, cooked))
    (fun _ _ tios => if Z.eqb (c_cflag tios) (c_cflag qdl_tios) then 0 else restore)
    (fun _ _ _ => sahara)
    (fun _ _ => firehose).

(** A world whose sysfs cannot be opened. *)
Definition no_sysfs : Env :=
  mk_Env "qdl" (fun _ file => root_of file) (fun _ _ => 0) (fun _ _ => 0)
    (fun _ => NoSysfs) (fun _ _ => 3) (fun _ _ => (0, cooked))
    (fun _ _ _ => 0) (fun _ _ _ => 0) (fun _ _ => 0).

(** A world in which no EDL device ever shows up. *)
Definition deserted : Env :=
  mk_Env "qdl" (fun _ file => root_of file) (fun _ _ => 0) (fun _ _ => 0)
    (fun _ => Listing [ttyS0; ttyUSB0]) (fun _ _ => 3)
    (fun _ _ => (0, cooked))
    (fun _ _ _ => 0) (fun _ _ _ => 0) (fun _ _ => 0).

(** A world with two EDL devices among other entries. *)
Definition crowded_dir : list dirent :=
  [ttyUSB1; ttyS0; ttyUSB2; ttyUSB3; ttyUSB0].

Definition crowded : Env :=
  mk_Env "qdl" (fun _ file => root_of file) (fun _ _ => 0) (fun _ _ => 0)
    (fun _ => Listing crowded_dir) (fun _ _ => 3) (fun _ _ => (0, cooked))
    (fun _ _ _ => 0) (fun _ _ _ => 0) (fun _ _ => 0).

End World.

(** ** More ways to read a trace *)

(** The device nodes of the [Open] actions of a trace, oldest first. *)
Definition opened (tr : list event) : list string :=
  flat_map (fun e => match e with Open p => [p] | _ => [] end) (rev tr).

(** The calls of the two engines in a trace, newest first. *)
Definition engine_event (e : event) : bool :=
  match e with
  | SaharaRun _ _ | FirehoseRun _ => true
  | _ => false
  end.

Definition engine_events (tr : list event) : list event :=
  filter engine_event tr.

(** How often a trace opens [/sys/class/tty]. *)
Definition scans (tr : list event) : nat :=
  length (filter (fun e => match e with OpenDir _ => true | _ => false end) tr).

(** Parsing or loading a descriptor file. *)
Definition load_action (e : event) : bool :=
  match e with
  | XmlReadFile _ | PatchLoad _ | ProgramLoad _ => true
  | _ => false
  end.

(** What the tail of [main] can do, from the call of [sahara_run] on. *)
Inductive finish_event : event -> Prop :=
| fi_sahara fd prog_mbn : finish_event (SaharaRun fd prog_mbn)
| fi_firehose fd : finish_event (FirehoseRun fd)
| fi_restore fd tios : finish_event (Tcsetattr fd tios)
| fi_warn : finish_event (Stderr "unable to restore tios of ttyUSB1")
| fi_close fd : finish_event (Close fd).

(** What the part of [main] before [tty_open] can do. *)
Definition startup_event (env : Env) (e : event) : Prop :=
  e = Stderr (usage env) \/ load_event e.

(** What [tty_open] can do. *)
Definition tty_open_event (e : event) : Prop :=
  locate_event e \/ open_event e.

(** ** The token as the specification words it

    The newline-terminated token of an attribute file: the characters
    before its first newline, however many they are.  [readat] computes
    [read_token] instead, which looks at four bytes only. *)

Definition newline_terminated_token (data : string) : string :=
  substring 0 (strcspn data (chr LF)) data.

(** ** A tty that keeps what it is told

    The line configuration in force after a trace, on a tty that started
    with [c0] and on which every [tcsetattr] took effect; and a world whose
    [tcsetattr] never fails and whose [tcgetattr], when it succeeds,
    answers the configuration in force. *)

Fixpoint line_config (c0 : termios) (tr : list event) : termios :=
  match tr with
  | [] => c0
  | Tcsetattr _ tios :: _ => tios
  | _ :: older => line_config c0 older
  end.

Definition faithful_tty (env : Env) (c0 : termios) : Prop :=
  (forall st fd r c,
      tcgetattr env st fd = (r, c) -> 0 <= r -> c = line_config c0 (trace st))
  /\ (forall st fd tios, 0 <= tcsetattr env st fd tios).

Module Lab.

(** A world with one EDL device on a faithful tty that starts in
    [World.cooked]; [sahara] and [firehose] are the engines' answers. *)
Definition bench (sahara firehose : Z) : Env :=
  mk_Env "qdl"
    (fun _ file => World.root_of file)
    (fun _ _ => 0)
    (fun _ _ => 0)
    (fun _ => Listing [World.ttyS0; World.ttyUSB0; World.ttyUSB1])
    (fun _ _ => 3)
    (fun st _ => (0, line_config World.cooked (trace st)))
    (fun _ _ _ => 0)
    (fun _ _ _ => sahara)
    (fun _ _ => firehose).

(** An entry whose attribute files hold more than the four characters. *)
Definition ttyUSB9 : dirent :=
  mk_dirent "ttyUSB9" true (Content "05c6 Qualcomm") (Content "9008").

(** An entry whose directory does not open. *)
Definition ttyUSB5 : dirent :=
  mk_dirent "ttyUSB5" false
    (Content ("05c6" ++ chr LF)) (Content ("9008" ++ chr LF)).

(** An entry whose vendor line is longer than the expected token. *)
Definition ttyUSB8 : dirent :=
  mk_dirent "ttyUSB8" true
    (Content ("05c6ff" ++ chr LF)) (Content ("9008" ++ chr LF)).

(** A world in which [/sys/class/tty] opens and [fdopendir] fails. *)
Definition no_stream : Env :=
  mk_Env "qdl" (fun _ file => World.root_of file) (fun _ _ => 0) (fun _ _ => 0)
    (fun _ => NoDirStream) (fun _ _ => 3) (fun _ _ => (0, World.cooked))
    (fun _ _ _ => 0) (fun _ _ _ => 0) (fun _ _ => 0).

(** A world whose tty opens and whose line configuration cannot be read. *)
Definition mute : Env :=
  mk_Env "qdl" (fun _ file => World.root_of file) (fun _ _ => 0) (fun _ _ => 0)
    (fun _ => Listing [World.ttyUSB1]) (fun _ _ => 3)
    (fun _ _ => (-1, World.cooked))
    (fun _ _ _ => 0) (fun _ _ _ => 0) (fun _ _ => 0).

End Lab.

(** ** Facts about C strings *)

Lemma compare_refl (a : string) : String.compare a a = Eq.
Proof.
  pose proof (String.compare_antisym a a) as H.
  destruct (String.compare a a); simpl in H; congruence.
Qed.

Lemma strcmp_eqb (a b : string) : (strcmp a b =? 0) = String.eqb a b.
Proof.
  unfold strcmp.
  destruct (String.eqb_spec a b) as [->|N].
  - now rewrite compare_refl.
  - destruct (String.compare a b) eqn:E; try reflexivity.
    apply String.compare_eq_iff in E. contradiction.
Qed.

Lemma length_append (a b : string) :
  String.length (a ++ b) = (String.length a + String.length b)%nat.
Proof. induction a as [|c a IH]; simpl; [reflexivity | now rewrite IH]. Qed.

Lemma substring_all (n : nat) (s : string) :
  (String.length s <= n)%nat -> substring 0 n s = s.
Proof.
  revert n. induction s as [|c s IH]; intros [|n] H; simpl in *;
    try reflexivity; try lia.
  f_equal. apply IH. lia.
Qed.

(** [strncmp(name, "ttyUSB", 6)] is zero exactly on the names that start
    with [ttyUSB]. *)
Lemma strncmp_ttyUSB (name : string) :
  (strncmp name "ttyUSB" 6 =? 0) = String.prefix "ttyUSB" name.
Proof.
  unfold strncmp. rewrite strcmp_eqb.
  change (substring 0 6 "ttyUSB") with "ttyUSB"%string.
  destruct (String.eqb_spec (substring 0 6 name) "ttyUSB") as [E|N].
  - symmetry. now apply (String.prefix_correct "ttyUSB" name).
  - destruct (String.prefix "ttyUSB" name) eqn:P; [|reflexivity].
    apply (String.prefix_correct "ttyUSB" name) in P. contradiction.
Qed.

(** A device name as short as a directory entry allows is never cut by
    [snprintf] into a buffer of [PATH_MAX] bytes. *)
Lemma snprintf_dev (name : string) :
  (String.length name <= NAME_MAX)%nat ->
  snprintf PATH_MAX ("/dev/" ++ name) = ("/dev/" ++ name)%string.
Proof.
  intros H. unfold snprintf. apply substring_all.
  rewrite length_append. unfold NAME_MAX in H. unfold PATH_MAX. simpl. lia.
Qed.

(** ** Running the monad *)

Ltac run :=
  unfold bind, call, emit, ret, err, errx, warn, exit, blocked; simpl.

Lemma bind_ret {A B} (m : M A) (k : A -> M B) (st st' : state) (a : A) :
  m st = (Ret a, st') -> bind m k st = k a st'.
Proof. intros H. unfold bind. now rewrite H. Qed.

Lemma bind_exit {A B} (m : M A) (k : A -> M B) (st st' : state) (c : Z) :
  m st = (Exit c, st') -> bind m k st = (Exit c, st').
Proof. intros H. unfold bind. now rewrite H. Qed.

Lemma after_refl (st : state) : after st [] st.
Proof. now split. Qed.

Lemma after_log (st : state) (e : event) : after st [e] (log e st).
Proof. now split. Qed.

Lemma after_trans (st1 st2 st3 : state) (evs1 evs2 : list event) :
  after st1 evs1 st2 -> after st2 evs2 st3 -> after st1 (evs2 ++ evs1) st3.
Proof.
  intros [T1 D1] [T2 D2]. split; [|congruence].
  now rewrite T2, T1, app_assoc.
Qed.

Lemma visited_app (evs tr : list event) :
  visited (evs ++ tr) = visited tr ++ visited evs.
Proof. unfold visited. now rewrite rev_app_distr, flat_map_app. Qed.

(** ** The descriptor classifier *)

(** C5.  [detect_type] decides from the name of the root element alone:
    [patches] gives the patch kind, [data] the program kind, [contents] the
    contents kind and every other name the unknown kind.  A file that does
    not parse gives no kind: [detect_type] prints a diagnostic that names
    the file and returns [-EINVAL], which is none of the four kinds. *)
Theorem detect_type_by_root_tag (env : Env) (file : string) (st : state) :
  (forall root, xmlReadFile env st file = Some root ->
     exists kind,
       detect_type env file st = (Ret kind, log (XmlReadFile file) st) /\
       (root = "patches"%string -> kind = QDL_FILE_PATCH) /\
       (root = "data"%string -> kind = QDL_FILE_PROGRAM) /\
       (root = "contents"%string -> kind = QDL_FILE_CONTENTS) /\
       (root <> "patches"%string -> root <> "data"%string ->
        root <> "contents"%string -> kind = QDL_FILE_UNKNOWN))
  /\
  (xmlReadFile env st file = None ->
     detect_type env file st =
       (Ret (- EINVAL),
        log (Stderr ("[PATCH] failed to parse " ++ file ++ chr LF))
          (log (XmlReadFile file) st)) /\
     ~ In (- EINVAL) [QDL_FILE_UNKNOWN; QDL_FILE_PATCH;
                      QDL_FILE_PROGRAM; QDL_FILE_CONTENTS]).
Proof.
  split.
  - intros root H. unfold detect_type. run. rewrite H.
    rewrite !strcmp_eqb. eexists. split; [reflexivity|].
    destruct (String.eqb_spec root "patches") as [->|N1].
    { repeat split; intros; try reflexivity; try discriminate; contradiction. }
    destruct (String.eqb_spec root "data") as [->|N2].
    { repeat split; intros; try reflexivity; try discriminate; contradiction. }
    destruct (String.eqb_spec root "contents") as [->|N3].
    { repeat split; intros; try reflexivity; try discriminate; contradiction. }
    repeat split; intros; try reflexivity; contradiction.
  - intros H. split.
    + unfold detect_type. run. now rewrite H.
    + unfold EINVAL, QDL_FILE_UNKNOWN, QDL_FILE_PATCH, QDL_FILE_PROGRAM,
        QDL_FILE_CONTENTS. simpl. lia.
Qed.

Lemma detect_type_by_root_tag_witness :
  detect_type (World.world 0 0 0 0) "rawprogram0.xml" init
  = (Ret QDL_FILE_PROGRAM, log (XmlReadFile "rawprogram0.xml") init)
  /\ detect_type (World.world 0 0 0 0) "garbage.bin" init
     = (Ret (- EINVAL),
        log (Stderr ("[PATCH] failed to parse " ++ "garbage.bin" ++ chr LF))
          (log (XmlReadFile "garbage.bin") init)).
Proof.
  split.
  - destruct (detect_type_by_root_tag (World.world 0 0 0 0)
                "rawprogram0.xml" init) as [H _].
    destruct (H "data"%string eq_refl) as [kind [E [_ [P _]]]].
    rewrite E, (P eq_refl). reflexivity.
  - destruct (detect_type_by_root_tag (World.world 0 0 0 0)
                "garbage.bin" init) as [_ H].
    exact (proj1 (H eq_refl)).
Defined.

(** ** The device locator *)

Lemma readat_token (file : attr) (name : string) (st : state) (t : string) :
  token file = Some t <->
  exists r st', readat file name 5 st = (Ret (r, t), st') /\ (r <? 0) = false.
Proof.
  destruct file as [| |data]; simpl; run; split.
  - discriminate.
  - intros (r & st' & E & Hr). inversion E; subst. discriminate.
  - discriminate.
  - intros (r & st' & E & Hr). inversion E; subst. discriminate.
  - intros E. inversion E; subst. now exists 0, st.
  - intros (r & st' & E & Hr). now inversion E.
Qed.

Lemma readat_no_token (file : attr) (name : string) (st : state) :
  token file = None ->
  exists r buf st', readat file name 5 st = (Ret (r, buf), st') /\
                    (r <? 0) = true /\ visited (trace st') = visited (trace st)
                    /\ qdl_debug st' = qdl_debug st.
Proof.
  destruct file as [| |data]; simpl; run; intros H; try discriminate.
  - exists (-1), EmptyString, st. now repeat split.
  - eexists _, _, _. split; [reflexivity|]. split; [reflexivity|].
    split; [|reflexivity].
    unfold visited. simpl. now rewrite flat_map_app, app_nil_r.
Qed.

(** One round of the [readdir] loop: a matching entry sets [found] and
    [dev_name], every other entry leaves both as they were, and in both
    cases the round ends normally with the one name read. *)
Lemma scan_entry_spec (len : nat) (de : dirent) (v : Z * string) (st : state) :
  exists st',
    scan_entry len de v st
    = (Ret (if matches de
            then (0, snprintf len ("/dev/" ++ d_name de))
            else v), st') /\
    visited (trace st') = visited (trace st) ++ [d_name de] /\
    qdl_debug st' = qdl_debug st.
Proof.
  assert (V : visited (trace (log (Readdir (d_name de)) st))
              = visited (trace st) ++ [d_name de]).
  { unfold visited. simpl. now rewrite flat_map_app. }
  unfold scan_entry, matches, candidate, token_is.
  unfold bind at 1. unfold emit at 1.
  rewrite strncmp_ttyUSB.
  destruct (String.prefix "ttyUSB" (d_name de)); simpl;
    [|eexists; split; [reflexivity | split; [exact V | reflexivity]]].
  destruct (d_opens de); simpl;
    [|eexists; split; [reflexivity | split; [exact V | reflexivity]]].
  destruct (token (idVendor de)) as [vid|] eqn:TV.
  - apply (readat_token _ "../../../../idVendor" (log (Readdir (d_name de)) st))
      in TV.
    destruct TV as (r1 & st1 & E1 & Hr1).
    assert (st1 = log (Readdir (d_name de)) st) as ->.
    { destruct (idVendor de); simpl in E1; run; inversion E1; subst;
        try discriminate; reflexivity. }
    rewrite (bind_ret _ _ _ _ _ E1). cbv beta iota. rewrite Hr1.
    destruct (token (idProduct de)) as [pid|] eqn:TP.
    + apply (readat_token _ "../../../../idProduct"
               (log (Readdir (d_name de)) st)) in TP.
      destruct TP as (r2 & st2 & E2 & Hr2).
      assert (st2 = log (Readdir (d_name de)) st) as ->.
      { destruct (idProduct de); simpl in E2; run; inversion E2; subst;
          try discriminate; reflexivity. }
      rewrite (bind_ret _ _ _ _ _ E2). cbv beta iota. rewrite Hr2.
      rewrite !strcmp_eqb.
      destruct (String.eqb vid "05c6"), (String.eqb pid "9008"); simpl;
        (eexists; split; [reflexivity | split; [exact V | reflexivity]]).
    + destruct (readat_no_token _ "../../../../idProduct"
                  (log (Readdir (d_name de)) st) TP)
        as (r2 & buf & st2 & E2 & Hr2 & V2 & D2).
      rewrite (bind_ret _ _ _ _ _ E2). cbv beta iota. rewrite Hr2.
      rewrite andb_false_r.
      eexists; split; [reflexivity | split; [now rewrite V2 | exact D2]].
  - destruct (readat_no_token _ "../../../../idVendor"
                (log (Readdir (d_name de)) st) TV)
      as (r1 & buf & st1 & E1 & Hr1 & V1 & D1).
    rewrite (bind_ret _ _ _ _ _ E1). cbv beta iota. rewrite Hr1.
    eexists; split; [reflexivity | split; [now rewrite V1 | exact D1]].
Qed.

Lemma scan_spec (len : nat) (entries : list dirent) :
  forall (v : Z * string) (st : state),
  exists st',
    scan len entries v st = (Ret (rounds len entries v), st') /\
    visited (trace st') = visited (trace st) ++ map d_name entries /\
    qdl_debug st' = qdl_debug st.
Proof.
  induction entries as [|de rest IH]; intros v st.
  - exists st. simpl. run. now rewrite app_nil_r.
  - destruct (scan_entry_spec len de v st) as (st1 & E1 & V1 & D1).
    destruct (IH (round len v de) st1) as (st2 & E2 & V2 & D2).
    exists st2. simpl scan. rewrite (bind_ret _ _ _ _ _ E1).
    split; [exact E2|]. split; [|congruence].
    rewrite V2, V1. simpl. now rewrite <- app_assoc.
Qed.

Lemma rounds_no_match (len : nat) (entries : list dirent) (v : Z * string) :
  forallb (fun d => negb (matches d)) entries = true ->
  rounds len entries v = v.
Proof.
  revert v. induction entries as [|de rest IH]; intros v H; [reflexivity|].
  simpl in H. apply andb_true_iff in H. destruct H as [H1 H2].
  unfold rounds. simpl. unfold round at 2.
  apply negb_true_iff in H1. rewrite H1. now apply IH.
Qed.

Lemma rounds_last_match (len : nat) (before later : list dirent)
      (de : dirent) (v : Z * string) :
  matches de = true ->
  forallb (fun d => negb (matches d)) later = true ->
  rounds len (before ++ de :: later) v
  = (0, snprintf len ("/dev/" ++ d_name de)).
Proof.
  intros Hm Hl. unfold rounds. rewrite fold_left_app. simpl.
  unfold round at 2. rewrite Hm. now apply rounds_no_match.
Qed.

Lemma find_qdl_tty_listing (env : Env) (dev_name : string) (len : nat)
      (st : state) (entries : list dirent) :
  sys_class_tty env st = Listing entries ->
  exists st',
    find_qdl_tty env dev_name len st
    = (Ret (rounds len entries (- ENOENT, dev_name)), st') /\
    visited (trace st') = visited (trace st) ++ map d_name entries /\
    qdl_debug st' = qdl_debug st.
Proof.
  intros H. unfold find_qdl_tty. unfold bind at 1. unfold call at 1.
  rewrite H.
  destruct (scan_spec len entries (- ENOENT, dev_name)
              (log (OpenDir "/sys/class/tty") st)) as (st1 & E1 & V1 & D1).
  rewrite (bind_ret _ _ _ _ _ E1). run.
  eexists. split; [reflexivity|]. simpl. split; [|exact D1].
  unfold visited in *. simpl in *. rewrite flat_map_app. simpl.
  rewrite app_nil_r. rewrite V1. now rewrite flat_map_app, app_nil_r.
Qed.

(** C3.  A scan of [/sys/class/tty] reads every entry of the directory,
    whatever has matched before.  When an entry matches and no entry after
    it does, the scan reports success with the device node of that entry,
    whatever the entries before it were and for whatever reason the entries
    after it failed; for a name that fits a directory entry the node is
    [/dev/] followed by the name. *)
Theorem find_qdl_tty_last_match (env : Env) (dev_name : string) (st : state)
        (entries : list dirent) :
  sys_class_tty env st = Listing entries ->
  exists v st',
    find_qdl_tty env dev_name PATH_MAX st = (Ret v, st') /\
    visited (trace st') = visited (trace st) ++ map d_name entries /\
    (forall before de later,
        entries = before ++ de :: later ->
        matches de = true ->
        forallb (fun d => negb (matches d)) later = true ->
        v = (0, snprintf PATH_MAX ("/dev/" ++ d_name de)) /\
        ((String.length (d_name de) <= NAME_MAX)%nat ->
         v = (0, "/dev/" ++ d_name de)%string)).
Proof.
  intros H.
  destruct (find_qdl_tty_listing env dev_name PATH_MAX st entries H)
    as (st' & E & V & _).
  eexists _, st'. split; [exact E|]. split; [exact V|].
  intros before de later -> Hm Hl.
  rewrite (rounds_last_match _ _ _ _ _ Hm Hl).
  split; [reflexivity|]. intros L. now rewrite (snprintf_dev _ L).
Qed.

Lemma find_qdl_tty_last_match_witness :
  exists st',
    find_qdl_tty World.crowded EmptyString PATH_MAX init
    = (Ret (0, "/dev/ttyUSB2"%string), st') /\
    visited (trace st')
    = ["ttyUSB1"; "ttyS0"; "ttyUSB2"; "ttyUSB3"; "ttyUSB0"]%string.
Proof.
  destruct (find_qdl_tty_last_match World.crowded EmptyString init
              World.crowded_dir eq_refl) as (v & st' & E & V & L).
  destruct (L [World.ttyUSB1; World.ttyS0] World.ttyUSB2
              [World.ttyUSB3; World.ttyUSB0] eq_refl eq_refl eq_refl)
    as [_ P].
  exists st'. split.
  - rewrite E, (P ltac:(simpl; unfold NAME_MAX; lia)). reflexivity.
  - exact V.
Defined.

Lemma mem_cons (c d : ascii) (s : string) :
  mem c (String d s) = Ascii.eqb c d || mem c s.
Proof. reflexivity. Qed.

Lemma c_str_cons (c : ascii) (s : string) :
  c_str (String c s) = if Ascii.eqb c NUL then EmptyString
                       else String c (c_str s).
Proof. reflexivity. Qed.

Lemma strcspn_cons (c : ascii) (s reject : string) :
  strcspn (String c s) reject
  = if mem c reject then O else S (strcspn s reject).
Proof. reflexivity. Qed.

Lemma c_str_line (line rest : string) :
  mem NUL line = false ->
  forall n, (String.length line <= n)%nat ->
  exists tail,
    c_str (substring 0 n (line ++ String LF rest)) = (line ++ tail)%string /\
    (tail = EmptyString \/ exists t, tail = String LF t).
Proof.
  induction line as [|c line IH]; intros Hn n Hl.
  - destruct n as [|n].
    + exists EmptyString. now split; [|left].
    + eexists. split; [reflexivity|]. right. now eexists.
  - rewrite mem_cons in Hn. apply orb_false_iff in Hn. destruct Hn as [Hc Hn].
    destruct n as [|n]; cbn [String.length] in Hl; [lia|].
    destruct (IH Hn n ltac:(lia)) as (tail & E & Ht).
    exists tail. split; [|exact Ht].
    cbn [append substring]. rewrite c_str_cons, Ascii.eqb_sym, Hc.
    cbn [append]. now rewrite E.
Qed.

Lemma cut_at_newline (line tail : string) :
  mem LF line = false ->
  tail = EmptyString \/ (exists t, tail = String LF t) ->
  substring 0 (strcspn (line ++ tail) (chr LF)) (line ++ tail) = line.
Proof.
  intros Hn Ht. induction line as [|c line IH].
  - destruct Ht as [-> | [t ->]]; reflexivity.
  - rewrite mem_cons in Hn. apply orb_false_iff in Hn. destruct Hn as [Hc Hn].
    cbn [append]. rewrite strcspn_cons. unfold chr at 1.
    rewrite mem_cons, Ascii.eqb_sym, Hc. cbn [mem orb substring].
    now rewrite (IH Hn).
Qed.

(** A first line of at most four characters is read as it stands. *)
Lemma read_token_line (line rest : string) :
  mem NUL line = false -> mem LF line = false ->
  (String.length line <= 4)%nat ->
  read_token 5 (line ++ chr LF ++ rest) = line.
Proof.
  intros H0 Hn Hl. unfold read_token.
  destruct (c_str_line line rest H0 4 Hl) as (tail & E & Ht).
  change (5 - 1)%nat with 4%nat. change (chr LF ++ rest)%string
    with (String LF rest).
  rewrite E. now apply cut_at_newline.
Qed.

(** The buffer holds four characters: of a longer first line only these
    are compared. *)
Remark read_token_buffer_bound :
  read_token 5 ("05c6ff" ++ chr LF) = "05c6"%string.
Proof. reflexivity. Qed.

Lemma token_is_true (file : attr) (expected : string) :
  token_is file expected = true <-> token file = Some expected.
Proof.
  unfold token_is. destruct (token file) as [t|]; split; intros H;
    try discriminate.
  - apply String.eqb_eq in H. now subst.
  - inversion H. apply String.eqb_refl.
Qed.

(** ** Which actions a computation performs *)

Section Emits.

Context {A B : Type} (P : event -> Prop).

Lemma emits_ret (a : A) : emits P (ret a).
Proof.
  intros st r st' H. inversion H; subst. exists []. split; [apply after_refl|].
  constructor.
Qed.

Lemma emits_exit (c : Z) : emits P (@exit A c).
Proof.
  intros st r st' H. inversion H; subst. exists []. split; [apply after_refl|].
  constructor.
Qed.

Lemma emits_blocked : emits P (@blocked A).
Proof.
  intros st r st' H. inversion H; subst. exists []. split; [apply after_refl|].
  constructor.
Qed.

Lemma emits_emit (e : event) : P e -> emits P (emit e).
Proof.
  intros He st r st' H. inversion H; subst. exists [e].
  split; [apply after_log|]. now repeat constructor.
Qed.

Lemma emits_call (e : event) (answer : state -> A) :
  P e -> emits P (call e answer).
Proof.
  intros He st r st' H. inversion H; subst. exists [e].
  split; [apply after_log|]. now repeat constructor.
Qed.

Lemma emits_bind (m : M A) (k : A -> M B) :
  emits P m -> (forall a, emits P (k a)) -> emits P (bind m k).
Proof.
  intros Hm Hk st r st' H. unfold bind in H.
  destruct (m st) as [[a|c|] st1] eqn:E.
  - destruct (Hm _ _ _ E) as (evs1 & A1 & F1).
    destruct (Hk a _ _ _ H) as (evs2 & A2 & F2).
    exists (evs2 ++ evs1). split; [eapply after_trans; eassumption|].
    apply Forall_app. now split.
  - inversion H; subst. eapply Hm. eassumption.
  - inversion H; subst. eapply Hm. eassumption.
Qed.

Lemma emits_err (c : Z) (msg : string) : P (Stderr msg) -> emits P (@err A c msg).
Proof.
  intros He st r st' H. unfold err, bind, emit, exit in H.
  inversion H; subst. exists [Stderr msg].
  split; [apply after_log|]. now repeat constructor.
Qed.

Lemma emits_errx (c : Z) (msg : string) :
  P (Stderr msg) -> emits P (@errx A c msg).
Proof. apply emits_err. Qed.

End Emits.

Lemma emits_impl {A} (P Q : event -> Prop) (m : M A) :
  (forall e, P e -> Q e) -> emits P m -> emits Q m.
Proof.
  intros PQ Hm st r st' H. destruct (Hm _ _ _ H) as (evs & Ha & F).
  exists evs. split; [exact Ha|]. eapply Forall_impl; eassumption.
Qed.

Create HintDb emits.
#[local] Hint Resolve emits_ret emits_exit emits_blocked emits_emit emits_call
  emits_err emits_errx : emits.
#[local] Hint Constructors load_event scan_event locate_event open_event : emits.

Ltac emits_step :=
  match goal with
  | |- emits _ (bind _ _) => apply emits_bind; [|intros]
  | |- emits _ (if ?c then _ else _) => destruct c
  | |- emits _ (match ?x with _ => _ end) => destruct x
  | |- emits _ (let '(_, _) := ?x in _) => destruct x
  | |- emits _ _ => solve [auto with emits]
  end.

Lemma detect_type_emits (env : Env) (file : string) :
  emits load_event (detect_type env file).
Proof. unfold detect_type. repeat emits_step. Qed.

Lemma load_file_emits (env : Env) (file : string) :
  emits load_event (load_file env file).
Proof.
  unfold load_file. apply emits_bind; [apply detect_type_emits|intros].
  repeat emits_step.
Qed.

Lemma load_files_emits (env : Env) (files : list string) :
  emits load_event (load_files env files).
Proof.
  induction files as [|file rest IH]; simpl; [auto with emits|].
  apply emits_bind; [apply load_file_emits|intros; exact IH].
Qed.

Lemma readat_vendor_emits (file : attr) (len : nat) :
  emits scan_event (readat file "../../../../idVendor" len).
Proof. unfold readat, warn. repeat emits_step. Qed.

Lemma readat_product_emits (file : attr) (len : nat) :
  emits scan_event (readat file "../../../../idProduct" len).
Proof. unfold readat, warn. repeat emits_step. Qed.

Lemma scan_entry_emits (len : nat) (de : dirent) (v : Z * string) :
  emits scan_event (scan_entry len de v).
Proof.
  unfold scan_entry.
  repeat first [ apply readat_vendor_emits | apply readat_product_emits
               | emits_step ].
Qed.

Lemma scan_emits (len : nat) (entries : list dirent) :
  forall v, emits scan_event (scan len entries v).
Proof.
  induction entries as [|de rest IH]; intros v; simpl; [auto with emits|].
  apply emits_bind; [apply scan_entry_emits|intros; apply IH].
Qed.

Lemma find_qdl_tty_scans (env : Env) (dev_name : string) (len : nat) :
  emits scan_event (find_qdl_tty env dev_name len).
Proof.
  unfold find_qdl_tty.
  repeat first [ apply scan_emits | emits_step ].
Qed.

Lemma find_qdl_tty_emits (env : Env) (dev_name : string) (len : nat) :
  emits locate_event (find_qdl_tty env dev_name len).
Proof.
  eapply emits_impl; [|apply find_qdl_tty_scans]. now constructor.
Qed.

(** ** The phases of [main] *)

Lemma main_usage (env : Env) (fuel : nat) (argv : list string) :
  usage_ok argv = false ->
  main env fuel argv init
  = (Ret 1, mk_state (has_debug argv) [Stderr (usage env)]).
Proof.
  unfold usage_ok, shifted, main, has_debug. intros H.
  destruct ((2 <=? Z.of_nat (length argv))
            && (strcmp (nth 1 argv EmptyString) "--debug" =? 0)); run;
    apply negb_false_iff in H; now rewrite H.
Qed.

Lemma main_phases (env : Env) (fuel : nat) (argv : list string) :
  usage_ok argv = true ->
  main env fuel argv init
  = bind (load_files env (descriptor_files argv))
      (fun _ => bind (tty_open env fuel EmptyString)
                  (fun x => let '(fd, tios) := x in
                            run_engines env (prog_mbn_of argv) fd tios))
      (start argv).
Proof.
  unfold usage_ok, descriptor_files, prog_mbn_of, shifted, start, main,
    has_debug.
  intros H.
  destruct ((2 <=? Z.of_nat (length argv))
            && (strcmp (nth 1 argv EmptyString) "--debug" =? 0));
    unfold bind at 1; unfold set_qdl_debug, ret at 1; simpl;
    apply negb_true_iff in H; rewrite H; reflexivity.
Qed.

(** The trace of the tail of [main], newest action first. *)
Lemma run_engines_spec (env : Env) (prog_mbn : string) (fd : Z)
      (tios : termios) (st : state) :
  0 <= fd ->
  exists engines warning,
    run_engines env prog_mbn fd tios st
    = (Ret 0,
       mk_state (qdl_debug st)
         (Close fd :: warning ++ Tcsetattr fd tios :: engines ++ trace st)) /\
    (if sahara_run env st fd prog_mbn <? 0
     then engines = [SaharaRun fd prog_mbn]
     else engines = [FirehoseRun fd; SaharaRun fd prog_mbn]) /\
    (if tcsetattr env (mk_state (qdl_debug st) (engines ++ trace st)) fd tios <? 0
     then warning = [Stderr "unable to restore tios of ttyUSB1"]
     else warning = []).
Proof.
  intros Hfd. apply Z.ltb_ge in Hfd.
  unfold run_engines. rewrite Hfd. run.
  destruct (sahara_run env st fd prog_mbn <? 0) eqn:S; simpl.
  - exists [SaharaRun fd prog_mbn]. unfold log; simpl.
    destruct (tcsetattr env _ fd tios <? 0) eqn:T; simpl;
      [exists [Stderr "unable to restore tios of ttyUSB1"] | exists []];
      (split; [reflexivity|]); (split; reflexivity).
  - exists [FirehoseRun fd; SaharaRun fd prog_mbn]. unfold log; simpl.
    destruct (tcsetattr env _ fd tios <? 0) eqn:T; simpl;
      [exists [Stderr "unable to restore tios of ttyUSB1"] | exists []];
      (split; [reflexivity|]); (split; reflexivity).
Qed.

(** ** The transport manager *)

Lemma load_event_not_line (e : event) : load_event e -> line_event e = false.
Proof. now destruct 1. Qed.

Lemma locate_event_not_line (e : event) :
  locate_event e -> line_event e = false.
Proof. destruct 1 as [e H| |]; [now destruct H|reflexivity|reflexivity]. Qed.

Lemma line_events_none (P : event -> Prop) (evs : list event) :
  (forall e, P e -> line_event e = false) ->
  Forall P evs -> line_events evs = [].
Proof.
  intros HP F. induction F as [|e evs He F IH]; [reflexivity|].
  unfold line_events in *. simpl. now rewrite (HP e He).
Qed.

Lemma line_events_app (a b : list event) :
  line_events (a ++ b) = line_events a ++ line_events b.
Proof. apply filter_app. Qed.

(** [tty_setup] either returns a descriptor that is not negative, with the
    configuration that [tcgetattr] answered, after exactly the actions
    open, get, flush and set; or it ends the process with status 1. *)
Lemma tty_setup_spec (env : Env) (p : string) (s : state)
      (r : result (Z * termios)) (st' : state) :
  tty_setup env p s = (r, st') ->
  (exists fd old,
      r = Ret (fd, old) /\ 0 <= fd /\ fd = sys_open env s p /\
      old = snd (tcgetattr env (log (Open p) s) fd) /\
      st' = log (Tcsetattr fd qdl_tios)
              (log (Tcflush fd) (log (Tcgetattr fd) (log (Open p) s))))
  \/
  (r = Exit 1 /\
   exists evs, after s evs st' /\ Forall open_event evs /\
               (line_events evs = [] \/
                exists fd, line_events evs = [Tcsetattr fd qdl_tios])).
Proof.
  unfold tty_setup. run.
  destruct (sys_open env s p <? 0) eqn:O; simpl.
  { intros H; inversion H; subst. right. split; [reflexivity|].
    eexists [_; _]. split; [now split|].
    split; [repeat constructor | now left]. }
  destruct (tcgetattr env (log (Open p) s) (sys_open env s p))
    as [rg old] eqn:G.
  destruct (rg <? 0) eqn:Hg; simpl.
  { intros H; inversion H; subst. right. split; [reflexivity|].
    eexists [_; _; _]. split; [now split|].
    split; [repeat constructor | now left]. }
  match goal with
  | |- context [tcsetattr env ?st ?fd qdl_tios <? 0] =>
      destruct (tcsetattr env st fd qdl_tios <? 0) eqn:U
  end; simpl.
  { intros H; inversion H; subst. right. split; [reflexivity|].
    eexists [_; _; _; _; _]. split; [now split|].
    split; [repeat constructor | right; eexists; reflexivity]. }
  intros H; inversion H; subst. left.
  eexists _, _. split; [reflexivity|]. split; [now apply Z.ltb_ge|].
  split; [reflexivity|]. split; [|reflexivity].
  now rewrite G.
Qed.

(** A scan returns to [tty_open] exactly when the directory could be
    listed; otherwise it ends the process with status 1. *)
Lemma find_qdl_tty_cases (env : Env) (path : string) (len : nat) (st : state)
      (r : result (Z * string)) (st' : state) :
  find_qdl_tty env path len st = (r, st') ->
  (exists entries,
      sys_class_tty env st = Listing entries /\
      r = Ret (rounds len entries (- ENOENT, path)))
  \/ (r = Exit 1 /\ sys_class_tty env st = NoSysfs /\
      st' = log (Stderr "failed to open /sys/class/tty")
              (log (OpenDir "/sys/class/tty") st))
  \/ (r = Exit 1 /\ sys_class_tty env st = NoDirStream /\
      st' = log (Stderr "failed to opendir /sys/class/tty")
              (log (OpenDir "/sys/class/tty") st)).
Proof.
  intros H. destruct (sys_class_tty env st) as [| |entries] eqn:E.
  - right; left. unfold find_qdl_tty in H. revert H. run. rewrite E.
    intros H; inversion H; now subst.
  - right; right. unfold find_qdl_tty in H. revert H. run. rewrite E.
    intros H; inversion H; now subst.
  - left. exists entries. split; [reflexivity|].
    destruct (find_qdl_tty_listing env path len st entries E)
      as (st1 & E1 & _). congruence.
Qed.

Lemma no_match_forallb (entries : list dirent) :
  existsb matches entries = false ->
  forallb (fun d => negb (matches d)) entries = true.
Proof.
  induction entries as [|d rest IH]; [reflexivity|]. simpl. intros X.
  apply orb_false_iff in X. destruct X as [X1 X2].
  rewrite X1. simpl. now apply IH.
Qed.

Lemma rounds_match_zero (len : nat) (entries : list dirent) :
  forall v, existsb matches entries = true ->
            fst (rounds len entries v) = 0.
Proof.
  induction entries as [|de rest IH]; intros v X; [discriminate|].
  unfold rounds in *. simpl in *. unfold round at 2.
  destruct (matches de) eqn:M.
  - destruct (existsb matches rest) eqn:X'; [now apply IH|].
    pose proof (rounds_no_match len rest
                  (0, snprintf len ("/dev/" ++ d_name de))
                  (no_match_forallb _ X')) as Q.
    unfold rounds in Q. now rewrite Q.
  - now apply IH.
Qed.

(** A scan that meets no matching entry: [tty_open] prints the notice,
    sleeps, and goes back to [retry] with one unit of fuel less. *)
Lemma tty_open_retry (env : Env) (fuel : nat) (path : string) (st : state)
      (entries : list dirent) :
  sys_class_tty env st = Listing entries ->
  existsb matches entries = false ->
  exists s,
    find_qdl_tty env path PATH_MAX st = (Ret (- ENOENT, path), s) /\
    tty_open env (S fuel) path st
    = tty_open env fuel path (log (Sleep 1) (log waiting s)).
Proof.
  intros L X.
  destruct (find_qdl_tty_listing env path PATH_MAX st entries L)
    as (s & E & _).
  rewrite (rounds_no_match _ _ _ (no_match_forallb _ X)) in E.
  exists s. split; [exact E|].
  simpl. now rewrite (bind_ret _ _ _ _ _ E).
Qed.

(** How a call of [tty_open] ends.  After scans and waiting only, either
    the fuel is used up, or a scan could not list the directory and ended
    the process, or a scan found a device and [tty_setup] decided the
    rest. *)
Lemma tty_open_spec (env : Env) (fuel : nat) :
  forall (path : string) (st : state) (r : result (Z * termios)) (st' : state),
  tty_open env fuel path st = (r, st') ->
  exists w s,
    after st w s /\ Forall locate_event w /\
    ((st' = s /\ (r = Blocked \/ r = Exit 1))
     \/ exists path0 w0 s0 entries p,
          after st w0 s0 /\
          sys_class_tty env s0 = Listing entries /\
          existsb matches entries = true /\
          find_qdl_tty env path0 PATH_MAX s0 = (Ret (0, p), s) /\
          tty_setup env p s = (r, st')).
Proof.
  induction fuel as [|fuel IH]; intros path st r st' H.
  - inversion H; subst. exists [], st'. split; [apply after_refl|].
    split; [constructor|]. left. now split; [|left].
  - destruct (sys_class_tty env st) as [| |entries] eqn:L.
    3: destruct (existsb matches entries) eqn:X.
    + simpl in H. unfold bind at 1 in H.
      destruct (find_qdl_tty env path PATH_MAX st) as [rf s1] eqn:F.
      destruct (find_qdl_tty_emits env path PATH_MAX _ _ _ F)
        as (w1 & A1 & F1).
      destruct (find_qdl_tty_cases _ _ _ _ _ _ F)
        as [(entries & L' & _)|[(-> & _ & _)|(-> & _ & _)]];
        [congruence| |];
        injection H as <- <-; exists w1, s1; (split; [exact A1|]);
        (split; [exact F1|]); left; (split; [reflexivity|now right]).
    + simpl in H. unfold bind at 1 in H.
      destruct (find_qdl_tty env path PATH_MAX st) as [rf s1] eqn:F.
      destruct (find_qdl_tty_emits env path PATH_MAX _ _ _ F)
        as (w1 & A1 & F1).
      destruct (find_qdl_tty_cases _ _ _ _ _ _ F)
        as [(entries & L' & _)|[(-> & _ & _)|(-> & _ & _)]];
        [congruence| |];
        injection H as <- <-; exists w1, s1; (split; [exact A1|]);
        (split; [exact F1|]); left; (split; [reflexivity|now right]).
    + destruct (find_qdl_tty_listing env path PATH_MAX st entries L)
        as (s1 & F & _).
      destruct (find_qdl_tty_emits env path PATH_MAX _ _ _ F)
        as (w1 & A1 & F1).
      pose proof (rounds_match_zero PATH_MAX entries (- ENOENT, path) X) as Z0.
      destruct (rounds PATH_MAX entries (- ENOENT, path)) as [r0 p].
      simpl in Z0. subst r0.
      simpl in H. rewrite (bind_ret _ _ _ _ _ F) in H. simpl in H.
      exists w1, s1. split; [exact A1|]. split; [exact F1|]. right.
      exists path, [], st, entries, p.
      split; [apply after_refl|]. now repeat split.
    + destruct (tty_open_retry env fuel path st entries L X)
        as (s1 & F & R).
      destruct (find_qdl_tty_emits env path PATH_MAX _ _ _ F)
        as (w1 & A1 & F1).
      rewrite R in H.
      assert (A1' : after st ([Sleep 1; waiting] ++ w1)
                      (log (Sleep 1) (log waiting s1))).
      { eapply after_trans; [exact A1|]. now split. }
      destruct (IH _ _ _ _ H) as (w2 & s2 & A2 & F2 & C).
      exists (w2 ++ [Sleep 1; waiting] ++ w1), s2.
      split; [eapply after_trans; eassumption|].
      split.
      { apply Forall_app. split; [exact F2|].
        constructor; [apply lo_sleep|]. constructor; [apply lo_notice|exact F1]. }
      destruct C as [C|(path0 & w0 & s0 & entries0 & p & A0 & C)];
        [now left|right].
      exists path0, (w0 ++ [Sleep 1; waiting] ++ w1), s0, entries0, p.
      split; [eapply after_trans; eassumption|exact C].
Qed.

(** ** The orchestrator *)

Lemma load_file_cases (env : Env) (file : string) (st : state)
      (r : result unit) (st' : state) :
  load_file env file st = (r, st') -> r = Ret tt \/ r = Exit 1.
Proof.
  unfold load_file, detect_type. run.
  destruct (xmlReadFile env st file) as [root|]; simpl.
  - repeat match goal with
           | |- context [if ?c then _ else _] => destruct c; simpl
           end;
      intros H; inversion H; auto.
  - intros H; inversion H; auto.
Qed.

Lemma load_files_cases (env : Env) (files : list string) :
  forall st r st',
    load_files env files st = (r, st') -> r = Ret tt \/ r = Exit 1.
Proof.
  induction files as [|file rest IH]; intros st r st' H.
  - inversion H. now left.
  - simpl in H. unfold bind in H.
    destruct (load_file env file st) as [r1 st1] eqn:E.
    destruct (load_file_cases _ _ _ _ _ E) as [-> | ->].
    + eapply IH; eassumption.
    + inversion H. now right.
Qed.

Lemma start_after_init (argv : list string) : trace (start argv) = [].
Proof. reflexivity. Qed.

(** What a run looks like when it holds the transport: the loading, then
    scans and waiting, then open, get, flush and set on a descriptor that
    is not negative. *)
Lemma acquired_trace (env : Env) (fuel : nat) (argv : list string)
      (fd : Z) (old : termios) (st2 : state) :
  acquired env fuel argv fd old st2 ->
  exists loading waiting_for p,
    st2 = mk_state (has_debug argv)
            (Tcsetattr fd qdl_tios :: Tcflush fd :: Tcgetattr fd :: Open p
             :: waiting_for ++ loading) /\
    Forall load_event loading /\ Forall locate_event waiting_for /\
    0 <= fd /\
    old = snd (tcgetattr env
                 (mk_state (has_debug argv) (Open p :: waiting_for ++ loading))
                 fd).
Proof.
  intros (U & st1 & L & T).
  destruct (load_files_emits env _ _ _ _ L) as (loading & [A1 D1] & F1).
  destruct (tty_open_spec env fuel _ _ _ _ T)
    as (w & s & [A2 D2] & F2 & [[_ [C|C]]|C]); try discriminate.
  destruct C as (path0 & w0 & s0 & entries & p & _ & _ & _ & _ & S).
  destruct (tty_setup_spec _ _ _ _ _ S)
    as [(fd' & old' & E & Hfd & _ & Ho & Hs)|[E _]]; [|discriminate].
  injection E as Ef Eo. subst fd'. rewrite <- Eo in Ho. clear Eo.
  rewrite start_after_init, app_nil_r in A1.
  assert (Hs' : s = mk_state (has_debug argv) (w ++ loading)).
  { destruct s as [d t]. simpl in *. f_equal; congruence. }
  exists loading, w, p. subst s.
  split; [exact Hs|]. split; [exact F1|]. split; [exact F2|].
  split; [exact Hfd|]. exact Ho.
Qed.

(** Every run of [main] either holds the transport and goes through the
    tail of [main], or ends (or waits) without it after early actions
    only, among them at most one [tcsetattr], the failed installation of
    [qdl_tios]. *)
Lemma main_cases (env : Env) (fuel : nat) (argv : list string)
      (r : result Z) (st : state) :
  main env fuel argv init = (r, st) ->
  (exists fd old st2,
      acquired env fuel argv fd old st2 /\
      run_engines env (prog_mbn_of argv) fd old st2 = (r, st))
  \/
  ((forall fd old st2, ~ acquired env fuel argv fd old st2) /\
   (r = Ret 1 \/ r = Exit 1 \/ r = Blocked) /\
   Forall (early_event env) (trace st) /\
   (line_events (trace st) = [] \/
    exists fd, line_events (trace st) = [Tcsetattr fd qdl_tios])).
Proof.
  intros H. destruct (usage_ok argv) eqn:U.
  2:{ rewrite (main_usage _ _ _ U) in H. inversion H; subst. right.
      split; [intros fd old st2 (U' & _); congruence|].
      split; [now left|]. simpl. split; [|now left].
      constructor; [now left | constructor]. }
  rewrite (main_phases _ _ _ U) in H. unfold bind at 1 in H.
  destruct (load_files env (descriptor_files argv) (start argv))
    as [r1 st1] eqn:L.
  destruct (load_files_emits env _ _ _ _ L) as (loading & [A1 D1] & F1).
  rewrite start_after_init, app_nil_r in A1.
  assert (N1 : line_events loading = [])
    by (eapply line_events_none; [apply load_event_not_line | exact F1]).
  assert (E1 : Forall (early_event env) loading)
    by (eapply Forall_impl; [|exact F1]; intros e He; right; now left).
  destruct (load_files_cases _ _ _ _ _ L) as [-> | ->].
  2:{ injection H as <- <-. right.
      split; [intros fd old st2 (_ & st1' & L' & _); congruence|].
      split; [right; now left|]. rewrite A1. split; [exact E1|now left]. }
  unfold bind at 1 in H.
  destruct (tty_open env fuel EmptyString st1) as [r2 st2] eqn:T.
  destruct (tty_open_spec env fuel _ _ _ _ T)
    as (w & s & [A2 D2] & F2 & C).
  assert (N2 : line_events w = [])
    by (eapply line_events_none; [apply locate_event_not_line | exact F2]).
  assert (E2 : Forall (early_event env) w)
    by (eapply Forall_impl; [|exact F2]; intros e He; right; right; now left).
  destruct C as [[-> [-> | ->]]|C].
  - injection H as <- <-. right.
    split; [intros fd old st2' (_ & st1' & L' & T'); congruence|].
    split; [right; now right|]. rewrite A2, A1.
    split; [now apply Forall_app|].
    rewrite line_events_app, N1, N2. now left.
  - injection H as <- <-. right.
    split; [intros fd old st2' (_ & st1' & L' & T'); congruence|].
    split; [right; now left|]. rewrite A2, A1.
    split; [now apply Forall_app|].
    rewrite line_events_app, N1, N2. now left.
  - destruct C as (path0 & w0 & s0 & entries & p & _ & _ & _ & _ & S).
    destruct (tty_setup_spec _ _ _ _ _ S)
      as [(fd & old & -> & Hfd & _ & Ho & Hs)
         |(-> & evs & [A3 D3] & F3 & N3)].
    + left. exists fd, old, st2.
      split; [split; [exact U|]; exists st1; now split | exact H].
    + injection H as <- <-. right.
      split; [intros fd old st2' (_ & st1' & L' & T'); congruence|].
      split; [right; now left|]. rewrite A3, A2, A1.
      split.
      * apply Forall_app. split; [|now apply Forall_app].
        eapply Forall_impl; [|exact F3]. intros e He. now do 3 right.
      * rewrite !line_events_app, N1, N2, !app_nil_r. exact N3.
Qed.

(** More fuel does not change a call of [tty_open] that has come to an
    end. *)
Lemma tty_open_more_fuel (env : Env) (fuel : nat) :
  forall (path : string) (st : state) (r : result (Z * termios)) (st' : state),
    tty_open env fuel path st = (r, st') -> r <> Blocked ->
    forall fuel', (fuel <= fuel')%nat ->
                  tty_open env fuel' path st = (r, st').
Proof.
  induction fuel as [|fuel IH]; intros path st r st' H NB fuel' Hle.
  - inversion H; subst. contradiction.
  - destruct fuel' as [|fuel']; [lia|].
    simpl in *. unfold bind at 1 in H. unfold bind at 1.
    destruct (find_qdl_tty env path PATH_MAX st) as [[[r0 p]|c|] s].
    + destruct (r0 <? 0); [|exact H].
      revert H. run. intros H. apply (IH _ _ _ _ H NB). lia.
    + exact H.
    + exact H.
Qed.

Lemma main_more_fuel (env : Env) (fuel : nat) (argv : list string)
      (r : result Z) (st : state) :
  main env fuel argv init = (r, st) -> r <> Blocked ->
  forall fuel', (fuel <= fuel')%nat -> main env fuel' argv init = (r, st).
Proof.
  intros H NB fuel' Hle. destruct (usage_ok argv) eqn:U.
  2:{ rewrite (main_usage _ fuel _ U) in H.
      rewrite (main_usage _ fuel' _ U). exact H. }
  rewrite (main_phases _ fuel _ U) in H. rewrite (main_phases _ fuel' _ U).
  unfold bind at 1 in H. unfold bind at 1.
  destruct (load_files env (descriptor_files argv) (start argv))
    as [[[]|c|] st1]; try exact H.
  unfold bind at 1 in H. unfold bind at 1.
  destruct (tty_open env fuel EmptyString st1) as [r2 st2] eqn:T.
  assert (NB2 : r2 <> Blocked).
  { intros ->. inversion H; subst. contradiction. }
  now rewrite (tty_open_more_fuel _ _ _ _ _ _ T NB2 _ Hle).
Qed.

(** C1.  A run that holds the transport (the command line passed, every
    descriptor file was classified and loaded, [tty_open] returned) ends
    with exit status 0, whatever [sahara_run] and [firehose_run] answer;
    the same run with more fuel ends the same way. *)
Theorem acquired_run_exits_zero (env : Env) (fuel : nat) (argv : list string)
        (fd : Z) (old : termios) (st2 : state) :
  acquired env fuel argv fd old st2 ->
  exists st3,
    main env fuel argv init = (Ret 0, st3) /\
    exit_status (main env fuel argv init) = Some 0 /\
    forall fuel', (fuel <= fuel')%nat ->
                  main env fuel' argv init = (Ret 0, st3).
Proof.
  intros Ha.
  destruct (acquired_trace _ _ _ _ _ _ Ha) as (_ & _ & _ & _ & _ & _ & Hfd & _).
  destruct (run_engines_spec env (prog_mbn_of argv) fd old st2 Hfd)
    as (engines & warning & E & _).
  destruct Ha as (U & st1 & L & T).
  assert (M : main env fuel argv init
              = (Ret 0, mk_state (qdl_debug st2)
                          (Close fd :: warning ++ Tcsetattr fd old
                           :: engines ++ trace st2))).
  { rewrite (main_phases _ _ _ U).
    rewrite (bind_ret _ _ _ _ _ L), (bind_ret _ _ _ _ _ T). exact E. }
  eexists. split; [exact M|]. split; [now rewrite M|].
  intros fuel' Hle. apply (main_more_fuel _ _ _ _ _ M); [discriminate|exact Hle].
Qed.

(** A run with [--debug] and two descriptor files; the device appears
    after two rounds of waiting; both engines and the restoration fail. *)
Lemma acquired_run_exits_zero_witness :
  exists st2,
    acquired (World.world 2 (-1) (-1) (-1)) 3
      ["qdl"; "--debug"; "prog.mbn"; "rawprogram0.xml"; "patch0.xml"]%string
      3 World.cooked st2 /\
    exit_status
      (main (World.world 2 (-1) (-1) (-1)) 3
         ["qdl"; "--debug"; "prog.mbn"; "rawprogram0.xml"; "patch0.xml"]%string
         init)
    = Some 0.
Proof.
  assert (Ha : exists st2,
             acquired (World.world 2 (-1) (-1) (-1)) 3
               ["qdl"; "--debug"; "prog.mbn"; "rawprogram0.xml";
                "patch0.xml"]%string 3 World.cooked st2).
  { eexists. split; [reflexivity|]. eexists. split; reflexivity. }
  destruct Ha as [st2 Ha]. exists st2. split; [exact Ha|].
  destruct (acquired_run_exits_zero _ _ _ _ _ _ Ha) as (st3 & _ & E & _).
  exact E.
Defined.

Lemma load_event_not_firehose (e : event) (fd : Z) :
  load_event e -> e <> FirehoseRun fd.
Proof. destruct 1; discriminate. Qed.

Lemma locate_event_not_firehose (e : event) (fd : Z) :
  locate_event e -> e <> FirehoseRun fd.
Proof. destruct 1 as [e H| |]; [destruct H|..]; discriminate. Qed.

Lemma Forall_not_In (P : event -> Prop) (evs : list event) (e : event) :
  (forall e', P e' -> e' <> e) -> Forall P evs -> ~ In e evs.
Proof.
  intros HP F I. rewrite Forall_forall in F. exact (HP e (F e I) eq_refl).
Qed.

(** C7.  In a run that holds the transport and in which [sahara_run]
    answers a negative value, [firehose_run] is not called at any time,
    and the run still ends with the restoration: [tcsetattr] with the saved
    configuration, a warning if that fails, and the close of the
    descriptor, after which [main] returns. *)
Theorem handshake_failure_skips_commands (env : Env) (fuel : nat)
        (argv : list string) (fd : Z) (old : termios) (st2 : state) :
  acquired env fuel argv fd old st2 ->
  sahara_run env st2 fd (prog_mbn_of argv) < 0 ->
  exists warning st3,
    main env fuel argv init = (Ret 0, st3) /\
    trace st3
    = Close fd :: warning ++ Tcsetattr fd old
      :: SaharaRun fd (prog_mbn_of argv) :: trace st2 /\
    (warning = [] \/ warning = [Stderr "unable to restore tios of ttyUSB1"]) /\
    (forall fd', ~ In (FirehoseRun fd') (trace st3)).
Proof.
  intros Ha Hs.
  destruct (acquired_trace _ _ _ _ _ _ Ha)
    as (loading & w & p & Hst2 & F1 & F2 & Hfd & _).
  destruct (run_engines_spec env (prog_mbn_of argv) fd old st2 Hfd)
    as (engines & warning & E & He & Hw).
  apply Z.ltb_lt in Hs. rewrite Hs in He. subst engines.
  destruct Ha as (U & st1 & L & T).
  exists warning. eexists. split.
  { rewrite (main_phases _ _ _ U).
    rewrite (bind_ret _ _ _ _ _ L), (bind_ret _ _ _ _ _ T). exact E. }
  split; [reflexivity|].
  assert (W : warning = [] \/
              warning = [Stderr "unable to restore tios of ttyUSB1"]).
  { destruct (tcsetattr env _ fd old <? 0); auto. }
  split; [exact W|].
  intros fd' I. simpl in I. destruct I as [I|I]; [discriminate|].
  apply in_app_or in I. destruct I as [I|I].
  { destruct W as [-> | ->]; simpl in I; [|destruct I as [I|I]];
      try discriminate; contradiction. }
  rewrite Hst2 in I. simpl in I.
  repeat (destruct I as [I|I]; [discriminate|]).
  apply in_app_or in I. destruct I as [I|I].
  - exact (Forall_not_In _ _ _
             (fun e => locate_event_not_firehose e fd') F2 I).
  - exact (Forall_not_In _ _ _
             (fun e => load_event_not_firehose e fd') F1 I).
Qed.

Lemma handshake_failure_skips_commands_witness :
  exists st2 warning st3,
    acquired (World.world 1 (-1) 0 0) 2
      ["qdl"; "prog.mbn"; "rawprogram0.xml"]%string 3 World.cooked st2 /\
    main (World.world 1 (-1) 0 0) 2
      ["qdl"; "prog.mbn"; "rawprogram0.xml"]%string init = (Ret 0, st3) /\
    trace st3
    = Close 3 :: warning ++ Tcsetattr 3 World.cooked
      :: SaharaRun 3 "prog.mbn" :: trace st2.
Proof.
  assert (Ha : exists st2,
             acquired (World.world 1 (-1) 0 0) 2
               ["qdl"; "prog.mbn"; "rawprogram0.xml"]%string
               3 World.cooked st2).
  { eexists. split; [reflexivity|]. eexists. split; reflexivity. }
  destruct Ha as [st2 Ha].
  destruct (handshake_failure_skips_commands _ _ _ _ _ _ Ha
              ltac:(simpl; lia)) as (warning & st3 & M & Tr & _).
  exists st2, warning, st3. split; [exact Ha|]. split; [exact M|exact Tr].
Defined.

Lemma In_line_events (e : event) (tr : list event) :
  line_event e = true -> In e tr -> In e (line_events tr).
Proof. intros He I. apply filter_In. now split. Qed.

(** C2.  In a run that holds the transport, [old] is what [tcgetattr]
    answered on the descriptor before [qdl_tios] was installed; the run
    ends with [tcsetattr] of [old], a warning exactly when that call
    answers a negative value, and the close of the descriptor, and returns
    0 either way.  Over the whole run the descriptor is closed once, and
    [tcsetattr] is called twice: to install [qdl_tios] and, after the
    engines, to put [old] back.  A run that never holds the transport
    closes nothing and calls [tcsetattr] at most once, for the failed
    installation of [qdl_tios]. *)
Theorem restoration_exactly_once (env : Env) (fuel : nat)
        (argv : list string) :
  (forall fd old st2,
      acquired env fuel argv fd old st2 ->
      exists engines warning st3 before,
        main env fuel argv init = (Ret 0, st3) /\
        trace st2
        = Tcsetattr fd qdl_tios :: Tcflush fd :: Tcgetattr fd :: before /\
        old = snd (tcgetattr env (mk_state (qdl_debug st2) before) fd) /\
        trace st3
        = Close fd :: warning ++ Tcsetattr fd old :: engines ++ trace st2 /\
        line_events (trace st3)
        = [Close fd; Tcsetattr fd old; Tcsetattr fd qdl_tios] /\
        (if tcsetattr env (mk_state (qdl_debug st2) (engines ++ trace st2))
              fd old <? 0
         then warning = [Stderr "unable to restore tios of ttyUSB1"]
         else warning = []))
  /\
  ((forall fd old st2, ~ acquired env fuel argv fd old st2) ->
   forall r st,
     main env fuel argv init = (r, st) ->
     (forall fd, ~ In (Close fd) (trace st)) /\
     (line_events (trace st) = [] \/
      exists fd, line_events (trace st) = [Tcsetattr fd qdl_tios])).
Proof.
  split.
  - intros fd old st2 Ha.
    destruct (acquired_trace _ _ _ _ _ _ Ha)
      as (loading & w & p & Hst2 & F1 & F2 & Hfd & Ho).
    destruct (run_engines_spec env (prog_mbn_of argv) fd old st2 Hfd)
      as (engines & warning & E & He & Hw).
    destruct Ha as (U & st1 & L & T).
    exists engines, warning. eexists. exists (Open p :: w ++ loading).
    split.
    { rewrite (main_phases _ _ _ U).
      rewrite (bind_ret _ _ _ _ _ L), (bind_ret _ _ _ _ _ T). exact E. }
    split; [now rewrite Hst2|].
    split; [now rewrite Hst2|].
    split; [reflexivity|].
    split; [|exact Hw].
    assert (N1 : line_events loading = [])
      by (eapply line_events_none; [apply load_event_not_line | exact F1]).
    assert (N2 : line_events w = [])
      by (eapply line_events_none; [apply locate_event_not_line | exact F2]).
    assert (Nw : line_events warning = [])
      by (destruct (tcsetattr env _ fd old <? 0); now subst).
    assert (Ne : line_events engines = [])
      by (destruct (sahara_run env st2 fd (prog_mbn_of argv) <? 0); now subst).
    cbn [trace]. unfold line_events in *. cbn [filter line_event].
    rewrite filter_app, Nw. cbn [filter line_event app].
    rewrite filter_app, Ne, Hst2. cbn [trace filter line_event app].
    now rewrite filter_app, N1, N2.
  - intros NA r st H.
    destruct (main_cases _ _ _ _ _ H)
      as [(fd & old & st2 & Ha & _)|(_ & _ & _ & N)].
    + now destruct (NA fd old st2).
    + split; [|exact N]. intros fd I.
      apply (In_line_events (Close fd) _ eq_refl) in I.
      destruct N as [N|[fd' N]]; rewrite N in I; simpl in I;
        [|destruct I as [I|I]; [discriminate|]]; contradiction.
Qed.

(** The restoration fails in the first run; the second run stops at the
    usage line. *)
Lemma restoration_exactly_once_witness :
  (exists st2 st3,
      acquired (World.world 0 0 0 (-1)) 1
        ["qdl"; "prog.mbn"; "patch0.xml"]%string 3 World.cooked st2 /\
      main (World.world 0 0 0 (-1)) 1
        ["qdl"; "prog.mbn"; "patch0.xml"]%string init = (Ret 0, st3) /\
      line_events (trace st3)
      = [Close 3; Tcsetattr 3 World.cooked; Tcsetattr 3 qdl_tios]) /\
  line_events
    (trace (snd (main (World.world 0 0 0 (-1)) 1
                   ["qdl"; "prog.mbn"]%string init))) = [].
Proof.
  split.
  - assert (Ha : exists st2,
               acquired (World.world 0 0 0 (-1)) 1
                 ["qdl"; "prog.mbn"; "patch0.xml"]%string
                 3 World.cooked st2).
    { eexists. split; [reflexivity|]. eexists. split; reflexivity. }
    destruct Ha as [st2 Ha].
    destruct (proj1 (restoration_exactly_once (World.world 0 0 0 (-1)) 1
                       ["qdl"; "prog.mbn"; "patch0.xml"]%string)
                _ _ _ Ha)
      as (engines & warning & st3 & before & M & _ & _ & _ & N & _).
    exists st2, st3. split; [exact Ha|]. split; [exact M|exact N].
  - assert (NA : forall fd old st2,
               ~ acquired (World.world 0 0 0 (-1)) 1
                   ["qdl"; "prog.mbn"]%string fd old st2).
    { intros fd old st2 (U & _). discriminate U. }
    destruct (proj2 (restoration_exactly_once (World.world 0 0 0 (-1)) 1
                       ["qdl"; "prog.mbn"]%string) NA _ _ eq_refl)
      as [_ [N|[fd N]]].
    + exact N.
    + discriminate N.
Defined.

(** The diagnostic of the branch [fd < 0] of [main] is none of the early
    diagnostics. *)
Lemma early_event_other_diagnostic (env : Env) (e : event) :
  early_event env e -> e <> Stderr "failed to open QDL tty".
Proof.
  intros [->|[H|[H|H]]].
  - intros E. injection E as E. apply (f_equal String.length) in E.
    unfold usage in E. rewrite length_append in E. simpl in E. lia.
  - destruct H; try discriminate.
    intros E. injection E as E. apply (f_equal String.length) in E.
    rewrite length_append in E. simpl in E. lia.
  - destruct H as [e H| |]; [destruct H|..]; discriminate.
  - destruct H; discriminate.
Qed.

(** C10.  [tty_open] ends in one of three ways: still waiting for a device,
    the process ended with status 1, or a descriptor returned that is not
    negative.  In no run of [main] does the diagnostic of the branch taken
    on a negative descriptor appear. *)
Theorem tty_open_never_negative (env : Env) :
  (forall fuel path st r st',
      tty_open env fuel path st = (r, st') ->
      r = Blocked \/ r = Exit 1 \/
      exists fd old, r = Ret (fd, old) /\ 0 <= fd) /\
  (forall fuel argv r st,
      main env fuel argv init = (r, st) ->
      ~ In (Stderr "failed to open QDL tty") (trace st)).
Proof.
  split.
  - intros fuel path st r st' H.
    destruct (tty_open_spec env fuel _ _ _ _ H)
      as (w & s & _ & _ & [[_ [C|C]]|C]); auto.
    destruct C as (path0 & w0 & s0 & entries & p & _ & _ & _ & _ & S).
    destruct (tty_setup_spec _ _ _ _ _ S)
      as [(fd & old & -> & Hfd & _)|[-> _]]; auto.
    right; right. now exists fd, old.
  - intros fuel argv r st H.
    destruct (main_cases _ _ _ _ _ H)
      as [(fd & old & st2 & Ha & E)|(_ & _ & F & _)].
    + destruct (acquired_trace _ _ _ _ _ _ Ha)
        as (loading & w & p & Hst2 & F1 & F2 & Hfd & _).
      destruct (run_engines_spec env (prog_mbn_of argv) fd old st2 Hfd)
        as (engines & warning & E' & He & Hw).
      rewrite E' in E. injection E as _ <-. cbn [trace].
      intros I. destruct I as [I|I]; [discriminate|].
      apply in_app_or in I. destruct I as [I|I].
      { destruct (tcsetattr env _ fd old <? 0); subst warning; simpl in I;
          [destruct I as [I|I]; [discriminate|]|]; contradiction. }
      destruct I as [I|I]; [discriminate|].
      apply in_app_or in I. destruct I as [I|I].
      { destruct (sahara_run env st2 fd (prog_mbn_of argv) <? 0);
          subst engines; simpl in I;
          repeat (destruct I as [I|I]; [discriminate|]); contradiction. }
      rewrite Hst2 in I. simpl in I.
      repeat (destruct I as [I|I]; [discriminate|]).
      apply in_app_or in I. destruct I as [I|I].
      * refine (Forall_not_In _ _ _ _ F2 I).
        intros e He'. apply (early_event_other_diagnostic env).
        right; right; now left.
      * refine (Forall_not_In _ _ _ _ F1 I).
        intros e He'. apply (early_event_other_diagnostic env).
        right; now left.
    + exact (Forall_not_In _ _ _ (early_event_other_diagnostic env) F).
Qed.

Lemma tty_open_never_negative_witness :
  (exists fd old st',
      tty_open (World.world 1 0 0 0) 2 EmptyString init = (Ret (fd, old), st')
      /\ 0 <= fd) /\
  ~ In (Stderr "failed to open QDL tty")
      (trace (snd (main (World.world 1 0 0 0) 2
                     ["qdl"; "prog.mbn"; "patch0.xml"]%string init))).
Proof.
  split.
  - destruct (proj1 (tty_open_never_negative (World.world 1 0 0 0))
                2%nat EmptyString init _ _ eq_refl)
      as [C|[C|(fd & old & E & Hfd)]]; try discriminate.
    eexists fd, old, _. split; [|exact Hfd].
    rewrite <- E. reflexivity.
  - exact (proj2 (tty_open_never_negative (World.world 1 0 0 0))
             2%nat ["qdl"; "prog.mbn"; "patch0.xml"]%string _ _ eq_refl).
Defined.

(** ** Loading the descriptor files *)

(** The loop body, case by case. *)
Lemma load_file_eq (env : Env) (file : string) (st : state) :
  load_file env file st
  = let s := log (XmlReadFile file) st in
    match xmlReadFile env st file with
    | None =>
        (Exit 1,
         log (Stderr ("failed to detect file type of " ++ file ++ chr LF))
           (log (Stderr ("[PATCH] failed to parse " ++ file ++ chr LF)) s))
    | Some root =>
        if String.eqb root "patches" then
          if patch_load env s file <? 0
          then (Exit 1, log (Stderr ("patch_load " ++ file ++ " failed"))
                          (log (PatchLoad file) s))
          else (Ret tt, log (PatchLoad file) s)
        else if String.eqb root "data" then
          if program_load env s file <? 0
          then (Exit 1, log (Stderr ("program_load " ++ file ++ " failed"))
                          (log (ProgramLoad file) s))
          else (Ret tt, log (ProgramLoad file) s)
        else if String.eqb root "contents" then
          (Exit 1, log (Stderr (file ++ " type not yet supported")) s)
        else
          (Exit 1,
           log (Stderr ("failed to detect file type of " ++ file ++ chr LF)) s)
    end.
Proof.
  unfold load_file, detect_type. run.
  destruct (xmlReadFile env st file) as [root|]; simpl; [|reflexivity].
  rewrite !strcmp_eqb.
  destruct (String.eqb root "patches"); simpl.
  { now destruct (patch_load env (log (XmlReadFile file) st) file <? 0). }
  destruct (String.eqb root "data"); simpl.
  { now destruct (program_load env (log (XmlReadFile file) st) file <? 0). }
  now destruct (String.eqb root "contents").
Qed.

Lemma load_files_app (env : Env) (a b : list string) (st : state) :
  load_files env (a ++ b) st
  = bind (load_files env a) (fun _ => load_files env b) st.
Proof.
  revert st. induction a as [|file a IH]; intros st; [reflexivity|].
  simpl. unfold bind.
  destruct (load_file env file st) as [[[]|c|] st1]; try reflexivity.
  rewrite IH. reflexivity.
Qed.

Lemma descriptor_files_usage (argv before later : list string)
      (file : string) :
  descriptor_files argv = before ++ file :: later -> usage_ok argv = true.
Proof.
  unfold descriptor_files, usage_ok. intros D.
  destruct (shifted argv) as [|a [|b [|c l]]]; simpl in D;
    try (destruct before; discriminate).
  apply negb_true_iff, Z.ltb_ge. simpl length. lia.
Qed.

(** A failure of the loop body at [file], after the files before it went
    through, is the end of the run. *)
Lemma main_load_abort (env : Env) (fuel : nat) (argv before later : list string)
      (file : string) (st1 st : state) (c : Z) :
  descriptor_files argv = before ++ file :: later ->
  load_files env before (start argv) = (Ret tt, st1) ->
  load_file env file st1 = (Exit c, st) ->
  main env fuel argv init = (Exit c, st).
Proof.
  intros D L F.
  rewrite (main_phases _ _ _ (descriptor_files_usage _ _ _ _ D)), D.
  apply bind_exit. rewrite load_files_app.
  rewrite (bind_ret _ _ _ _ _ L). simpl. now apply bind_exit.
Qed.

Lemma classified_cons (e : event) (tr : list event) :
  classified (e :: tr)
  = classified tr ++ match e with XmlReadFile f => [f] | _ => [] end.
Proof.
  unfold classified. simpl. rewrite flat_map_app. simpl.
  now rewrite app_nil_r.
Qed.

Lemma loaded_cons (e : event) (tr : list event) :
  loaded (e :: tr)
  = loaded tr ++ match e with
                 | PatchLoad f | ProgramLoad f => [f]
                 | _ => []
                 end.
Proof.
  unfold loaded. simpl. rewrite flat_map_app. simpl.
  now rewrite app_nil_r.
Qed.

(** Files that went through the loop were each classified once and loaded
    once, in the order given. *)
Lemma load_files_ok_trace (env : Env) (files : list string) :
  forall st st',
    load_files env files st = (Ret tt, st') ->
    classified (trace st') = classified (trace st) ++ files /\
    loaded (trace st') = loaded (trace st) ++ files.
Proof.
  induction files as [|file rest IH]; intros st st' H.
  - inversion H; subst. now rewrite !app_nil_r.
  - simpl in H. unfold bind in H. rewrite load_file_eq in H. cbv zeta in H.
    assert (K : forall s,
               load_files env rest s = (Ret tt, st') ->
               classified (trace s) = classified (trace st) ++ [file] ->
               loaded (trace s) = loaded (trace st) ++ [file] ->
               classified (trace st') = classified (trace st) ++ file :: rest /\
               loaded (trace st') = loaded (trace st) ++ file :: rest).
    { intros s Hs C Lo. destruct (IH _ _ Hs) as [C' L'].
      rewrite C', L', C, Lo, <- !app_assoc. now split. }
    destruct (xmlReadFile env st file) as [root|]; [|discriminate].
    destruct (String.eqb root "patches").
    { destruct (patch_load env _ file <? 0); [discriminate|].
      apply (K _ H); simpl;
        rewrite ?classified_cons, ?loaded_cons; simpl;
        now rewrite ?app_nil_r. }
    destruct (String.eqb root "data").
    { destruct (program_load env _ file <? 0); [discriminate|].
      apply (K _ H); simpl;
        rewrite ?classified_cons, ?loaded_cons; simpl;
        now rewrite ?app_nil_r. }
    destruct (String.eqb root "contents"); discriminate.
Qed.

Lemma load_event_not_device (e : event) :
  load_event e -> device_event e = false.
Proof. now destruct 1. Qed.

Lemma load_file_fails_to_classify (env : Env) (file : string) (st : state) :
  fails_to_classify env st file ->
  exists mid,
    load_file env file st
    = (Exit 1,
       mk_state (qdl_debug st)
         (Stderr ("failed to detect file type of " ++ file ++ chr LF)
          :: mid ++ XmlReadFile file :: trace st)) /\
    (mid = [] \/
     mid = [Stderr ("[PATCH] failed to parse " ++ file ++ chr LF)]).
Proof.
  unfold fails_to_classify. intros H. rewrite load_file_eq. cbv zeta.
  destruct (xmlReadFile env st file) as [root|].
  - destruct H as (N1 & N2 & N3).
    apply String.eqb_neq in N1, N2, N3. rewrite N1, N2, N3.
    exists []. now split; [|left].
  - eexists [_]. now split; [|right].
Qed.

Lemma load_file_fails_to_load (env : Env) (file : string) (st : state) :
  fails_to_load env st file ->
  exists msg call_event,
    load_file env file st
    = (Exit 1,
       mk_state (qdl_debug st)
         (Stderr msg :: call_event :: XmlReadFile file :: trace st)) /\
    (call_event = PatchLoad file \/ call_event = ProgramLoad file).
Proof.
  intros [[X Hl]|[X Hl]]; rewrite load_file_eq; cbv zeta; rewrite X; simpl;
    apply Z.ltb_lt in Hl; rewrite Hl; eexists _, _;
    (split; [reflexivity|]); auto.
Qed.

Lemma load_file_contents (env : Env) (file : string) (st : state) :
  xmlReadFile env st file = Some "contents"%string ->
  load_file env file st
  = (Exit 1,
     log (Stderr (file ++ " type not yet supported"))
       (log (XmlReadFile file) st)).
Proof. intros X. rewrite load_file_eq. cbv zeta. now rewrite X. Qed.

Lemma loaded_before (env : Env) (argv before : list string) (st1 : state) :
  load_files env before (start argv) = (Ret tt, st1) ->
  classified (trace st1) = before /\ loaded (trace st1) = before.
Proof.
  intros L. destruct (load_files_ok_trace _ _ _ _ L) as [C Lo].
  now rewrite C, Lo.
Qed.

(** No action of a run that ends in the loop over the descriptor files
    touches the device side. *)
Lemma load_abort_no_device (env : Env) (fuel : nat) (argv : list string)
      (before later : list string) (file : string) (st1 st : state) (c : Z) :
  descriptor_files argv = before ++ file :: later ->
  load_files env before (start argv) = (Ret tt, st1) ->
  load_file env file st1 = (Exit c, st) ->
  forall e, In e (trace st) -> device_event e = false.
Proof.
  intros D L F e I.
  assert (W : load_files env (before ++ file :: later) (start argv)
              = (Exit c, st)).
  { rewrite load_files_app, (bind_ret _ _ _ _ _ L). simpl.
    now apply bind_exit. }
  destruct (load_files_emits env _ _ _ _ W) as (evs & [A _] & Fa).
  rewrite start_after_init, app_nil_r in A. rewrite A in I.
  rewrite Forall_forall in Fa. apply load_event_not_device. now apply Fa.
Qed.

(** C6.  When the descriptor files before [file] have been classified and
    loaded and [file] does not classify or does not load, the run ends
    with exit status 1; no action of the run is on the device side (no scan
    of sysfs, no open of a tty); the files classified are exactly those
    before [file] and [file] itself, and the files handed to a loader are
    those before [file], followed by [file] when it is its loader that
    failed.  No file after [file] is classified or loaded. *)
Theorem bad_descriptor_aborts_before_device (env : Env) (fuel : nat)
        (argv before later : list string) (file : string) (st1 : state) :
  descriptor_files argv = before ++ file :: later ->
  load_files env before (start argv) = (Ret tt, st1) ->
  fails_to_classify env st1 file \/ fails_to_load env st1 file ->
  exists st,
    main env fuel argv init = (Exit 1, st) /\
    (forall e, In e (trace st) -> device_event e = false) /\
    classified (trace st) = before ++ [file] /\
    (fails_to_classify env st1 file -> loaded (trace st) = before) /\
    (fails_to_load env st1 file -> loaded (trace st) = before ++ [file]).
Proof.
  intros D L Hf.
  destruct (loaded_before _ _ _ _ L) as [C Lo].
  assert (X : fails_to_classify env st1 file -> fails_to_load env st1 file ->
              False).
  { unfold fails_to_classify.
    intros Hc [[E _]|[E _]]; rewrite E in Hc; destruct Hc as (? & ? & ?);
      congruence. }
  destruct Hf as [Hc|Hl].
  - destruct (load_file_fails_to_classify _ _ _ Hc) as (mid & F & Hm).
    eexists. split; [exact (main_load_abort _ fuel _ _ _ _ _ _ _ D L F)|].
    split; [exact (load_abort_no_device _ fuel _ _ _ _ _ _ _ D L F)|].
    cbn [trace].
    split; [|split; [intros _|intros Hl; destruct (X Hc Hl)]].
    + destruct Hm as [-> | ->]; simpl;
        rewrite ?classified_cons, C; simpl; now rewrite ?app_nil_r.
    + destruct Hm as [-> | ->]; simpl;
        rewrite ?loaded_cons, Lo; simpl; now rewrite ?app_nil_r.
  - destruct (load_file_fails_to_load _ _ _ Hl) as (msg & ce & F & Hce).
    eexists. split; [exact (main_load_abort _ fuel _ _ _ _ _ _ _ D L F)|].
    split; [exact (load_abort_no_device _ fuel _ _ _ _ _ _ _ D L F)|].
    cbn [trace].
    split; [|split; [intros Hc; destruct (X Hc Hl)|intros _]].
    + destruct Hce as [-> | ->];
        rewrite ?classified_cons, C; simpl; now rewrite ?app_nil_r.
    + destruct Hce as [-> | ->];
        rewrite ?loaded_cons, Lo; simpl; now rewrite ?app_nil_r.
Qed.

(** The second of three files does not parse. *)
Lemma bad_descriptor_aborts_before_device_witness :
  exists st,
    main (World.world 0 0 0 0) 4
      ["qdl"; "prog.mbn"; "rawprogram0.xml"; "garbage.bin"; "patch0.xml"]%string
      init = (Exit 1, st) /\
    classified (trace st) = ["rawprogram0.xml"; "garbage.bin"]%string /\
    loaded (trace st) = ["rawprogram0.xml"]%string.
Proof.
  destruct (bad_descriptor_aborts_before_device (World.world 0 0 0 0) 4
              ["qdl"; "prog.mbn"; "rawprogram0.xml"; "garbage.bin";
               "patch0.xml"]%string
              ["rawprogram0.xml"]%string ["patch0.xml"]%string
              "garbage.bin"
              (mk_state false [ProgramLoad "rawprogram0.xml";
                               XmlReadFile "rawprogram0.xml"])
              eq_refl eq_refl (or_introl I))
    as (st & M & _ & C & Lo & _).
  exists st. split; [exact M|]. split; [exact C|]. exact (Lo I).
Defined.

(** C9.  After the files before it went through, a descriptor file whose
    root element is [contents] ends the run with exit status 1 and the
    diagnostic that the file's type is not yet supported; a file that does
    not parse or has an unknown root ends it with the diagnostic that its
    type could not be detected.  Both diagnostics name the file, the first
    differs from the second (and from the parse diagnostic) for every file
    name, and in both cases the file has been classified and no loader has
    been called on it. *)
Theorem contents_not_yet_supported (env : Env) (fuel : nat)
        (argv before later : list string) (file : string) (st1 : state) :
  descriptor_files argv = before ++ file :: later ->
  load_files env before (start argv) = (Ret tt, st1) ->
  (xmlReadFile env st1 file = Some "contents"%string ->
   exists st,
     main env fuel argv init = (Exit 1, st) /\
     trace st
     = Stderr (file ++ " type not yet supported")
       :: XmlReadFile file :: trace st1 /\
     classified (trace st) = before ++ [file] /\
     loaded (trace st) = before)
  /\
  (fails_to_classify env st1 file ->
   exists st mid,
     main env fuel argv init = (Exit 1, st) /\
     trace st
     = Stderr ("failed to detect file type of " ++ file ++ chr LF)
       :: mid ++ XmlReadFile file :: trace st1 /\
     (mid = [] \/
      mid = [Stderr ("[PATCH] failed to parse " ++ file ++ chr LF)]) /\
     classified (trace st) = before ++ [file] /\
     loaded (trace st) = before)
  /\
  (file ++ " type not yet supported")%string
  <> ("failed to detect file type of " ++ file ++ chr LF)%string
  /\
  (file ++ " type not yet supported")%string
  <> ("[PATCH] failed to parse " ++ file ++ chr LF)%string.
Proof.
  intros D L.
  destruct (loaded_before _ _ _ _ L) as [C Lo].
  split; [|split; [|split]].
  - intros X. pose proof (load_file_contents _ _ _ X) as F.
    eexists. split; [exact (main_load_abort _ fuel _ _ _ _ _ _ _ D L F)|].
    split; [reflexivity|]. simpl.
    rewrite !classified_cons, !loaded_cons, C, Lo. simpl.
    now rewrite !app_nil_r.
  - intros Hc.
    destruct (load_file_fails_to_classify _ _ _ Hc) as (mid & F & Hm).
    eexists. exists mid.
    split; [exact (main_load_abort _ fuel _ _ _ _ _ _ _ D L F)|].
    split; [reflexivity|]. split; [exact Hm|]. cbn [trace].
    destruct Hm as [-> | ->]; simpl;
      rewrite !classified_cons, !loaded_cons, C, Lo; simpl;
      now rewrite !app_nil_r.
  - intros E. apply (f_equal String.length) in E.
    rewrite !length_append in E. simpl in E. lia.
  - intros E. apply (f_equal String.length) in E.
    rewrite !length_append in E. simpl in E. lia.
Qed.

(** A contents file after a program file, and an unknown file in its
    place. *)
Lemma contents_not_yet_supported_witness :
  (exists st,
      main (World.world 0 0 0 0) 4
        ["qdl"; "prog.mbn"; "rawprogram0.xml"; "contents.xml"]%string init
      = (Exit 1, st) /\
      trace st
      = [Stderr "contents.xml type not yet supported";
         XmlReadFile "contents.xml";
         ProgramLoad "rawprogram0.xml"; XmlReadFile "rawprogram0.xml"]) /\
  (exists st,
      main (World.world 0 0 0 0) 4
        ["qdl"; "prog.mbn"; "rawprogram0.xml"; "settings.xml"]%string init
      = (Exit 1, st) /\
      trace st
      = [Stderr ("failed to detect file type of settings.xml" ++ chr LF);
         XmlReadFile "settings.xml";
         ProgramLoad "rawprogram0.xml"; XmlReadFile "rawprogram0.xml"]).
Proof.
  split.
  - destruct (contents_not_yet_supported (World.world 0 0 0 0) 4
                ["qdl"; "prog.mbn"; "rawprogram0.xml"; "contents.xml"]%string
                ["rawprogram0.xml"]%string [] "contents.xml"
                (mk_state false [ProgramLoad "rawprogram0.xml";
                                 XmlReadFile "rawprogram0.xml"])
                eq_refl eq_refl) as [H _].
    destruct (H eq_refl) as (st & M & T & _).
    exists st. split; [exact M|exact T].
  - destruct (contents_not_yet_supported (World.world 0 0 0 0) 4
                ["qdl"; "prog.mbn"; "rawprogram0.xml"; "settings.xml"]%string
                ["rawprogram0.xml"]%string [] "settings.xml"
                (mk_state false [ProgramLoad "rawprogram0.xml";
                                 XmlReadFile "rawprogram0.xml"])
                eq_refl eq_refl) as [_ [H _]].
    assert (Hc : fails_to_classify (World.world 0 0 0 0)
                   (mk_state false [ProgramLoad "rawprogram0.xml";
                                    XmlReadFile "rawprogram0.xml"])
                   "settings.xml").
    { unfold fails_to_classify. simpl. repeat split; discriminate. }
    destruct (H Hc) as (st & mid & M & T & [-> | ->] & _).
    + exists st. split; [exact M|exact T].
    + exfalso. rewrite M in *.
      assert (E : main (World.world 0 0 0 0) 4
                    ["qdl"; "prog.mbn"; "rawprogram0.xml";
                     "settings.xml"]%string init
                  = (Exit 1,
                     mk_state false
                       [Stderr ("failed to detect file type of settings.xml"
                                ++ chr LF);
                        XmlReadFile "settings.xml";
                        ProgramLoad "rawprogram0.xml";
                        XmlReadFile "rawprogram0.xml"])) by reflexivity.
      rewrite M in E. injection E as ->. discriminate T.
Defined.

(** ** Waiting for the device *)

Lemma sleeps_app (a b : list event) : sleeps (a ++ b) = (sleeps a + sleeps b)%nat.
Proof. unfold sleeps. now rewrite filter_app, length_app. Qed.

Lemma notices_app (a b : list event) :
  notices (a ++ b) = (notices a + notices b)%nat.
Proof. unfold notices. now rewrite filter_app, length_app. Qed.


Lemma scan_events_quiet (evs : list event) :
  Forall scan_event evs -> sleeps evs = O /\ notices evs = O.
Proof.
  induction 1 as [|e evs He F [IH1 IH2]]; [now split|].
  unfold sleeps, notices in *. destruct He; simpl; now split.
Qed.

(** What [tty_open] has done when it returns: after scans and waiting
    only, one scan of the run listed the directory, met a matching entry
    and left its node in [path]; the open, the save, the flush and the
    install on that node are the newest actions. *)
Lemma tty_open_returns_after_match (env : Env) (fuel : nat) (path : string)
      (st : state) (fd : Z) (old : termios) (st' : state) :
  tty_open env fuel path st = (Ret (fd, old), st') ->
  exists w0 s0 entries path0 p scanned s,
    trace s0 = w0 ++ trace st /\ qdl_debug s0 = qdl_debug st /\
    Forall locate_event w0 /\
    sys_class_tty env s0 = Listing entries /\
    existsb matches entries = true /\
    find_qdl_tty env path0 PATH_MAX s0 = (Ret (0, p), s) /\
    trace s = scanned ++ trace s0 /\ Forall scan_event scanned /\
    trace st'
    = Tcsetattr fd qdl_tios :: Tcflush fd :: Tcgetattr fd :: Open p
      :: trace s.
Proof.
  intros H.
  destruct (tty_open_spec env fuel _ _ _ _ H)
    as (w & s & [A _] & F & [[_ [C|C]]|C]); try discriminate.
  destruct C as (path0 & w0 & s0 & entries & p & [A0 D0] & L & X & Ef & S).
  destruct (find_qdl_tty_scans env path0 PATH_MAX _ _ _ Ef)
    as (scanned & [As _] & Fs).
  destruct (tty_setup_spec _ _ _ _ _ S)
    as [(fd' & old' & E & _ & _ & _ & ->)|[E _]]; [|discriminate].
  injection E as <- <-.
  exists w0, s0, entries, path0, p, scanned, s.
  split; [exact A0|]. split; [exact D0|].
  split.
  { rewrite As, A0, app_assoc in A. apply app_inv_tail in A. subst w.
    apply Forall_app in F. now destruct F. }
  repeat (split; [assumption|]). reflexivity.
Qed.

(** C8.  A scan that lists the directory and meets no matching entry ends
    nothing: [tty_open] prints the notice, sleeps one second and scans
    again.  In a world that never shows a matching entry [tty_open] is
    still waiting after any number of rounds, each with one notice and one
    sleep.  When [tty_open] returns, a scan of this very run has listed
    the directory and met a matching entry: before that scan the run only
    scanned and waited, and after it the run opened and configured the
    node that the scan reported.  A scan that cannot open
    [/sys/class/tty], or cannot read it as a directory, ends the process
    with status 1. *)
Theorem no_device_is_not_fatal (env : Env) :
  (forall fuel path st entries,
      sys_class_tty env st = Listing entries ->
      existsb matches entries = false ->
      exists s,
        find_qdl_tty env path PATH_MAX st = (Ret (- ENOENT, path), s) /\
        tty_open env (S fuel) path st
        = tty_open env fuel path (log (Sleep 1) (log waiting s)))
  /\
  ((forall st, exists entries,
        sys_class_tty env st = Listing entries /\
        existsb matches entries = false) ->
   forall fuel path st,
   exists evs st',
     tty_open env fuel path st = (Blocked, st') /\
     after st evs st' /\ notices evs = fuel /\ sleeps evs = fuel)
  /\
  (forall fuel path st fd old st',
      tty_open env fuel path st = (Ret (fd, old), st') ->
      exists w0 s0 entries path0 p scanned s,
        trace s0 = w0 ++ trace st /\ qdl_debug s0 = qdl_debug st /\
        Forall locate_event w0 /\
        sys_class_tty env s0 = Listing entries /\
        existsb matches entries = true /\
        find_qdl_tty env path0 PATH_MAX s0 = (Ret (0, p), s) /\
        trace s = scanned ++ trace s0 /\ Forall scan_event scanned /\
        trace st'
        = Tcsetattr fd qdl_tios :: Tcflush fd :: Tcgetattr fd :: Open p
          :: trace s)
  /\
  (forall fuel path st,
      (sys_class_tty env st = NoSysfs ->
       tty_open env (S fuel) path st
       = (Exit 1,
          log (Stderr "failed to open /sys/class/tty")
            (log (OpenDir "/sys/class/tty") st))) /\
      (sys_class_tty env st = NoDirStream ->
       tty_open env (S fuel) path st
       = (Exit 1,
          log (Stderr "failed to opendir /sys/class/tty")
            (log (OpenDir "/sys/class/tty") st))))
  /\
  (forall fuel argv st1,
      usage_ok argv = true ->
      load_files env (descriptor_files argv) (start argv) = (Ret tt, st1) ->
      sys_class_tty env st1 = NoSysfs \/ sys_class_tty env st1 = NoDirStream ->
      exit_status (main env (S fuel) argv init) = Some 1).
Proof.
  assert (NS : forall fuel path st,
             (sys_class_tty env st = NoSysfs ->
              tty_open env (S fuel) path st
              = (Exit 1,
                 log (Stderr "failed to open /sys/class/tty")
                   (log (OpenDir "/sys/class/tty") st))) /\
             (sys_class_tty env st = NoDirStream ->
              tty_open env (S fuel) path st
              = (Exit 1,
                 log (Stderr "failed to opendir /sys/class/tty")
                   (log (OpenDir "/sys/class/tty") st)))).
  { intros fuel path st. split; intros N; simpl; unfold find_qdl_tty; run;
      now rewrite N. }
  split; [intros; eapply tty_open_retry; eassumption|].
  split; [|split; [|split; [exact NS|]]].
  - intros Never fuel. induction fuel as [|fuel IH]; intros path st.
    + exists [], st. split; [reflexivity|]. split; [apply after_refl|].
      now split.
    + destruct (Never st) as (entries & L & X).
      destruct (tty_open_retry env fuel path st entries L X) as (s & F & R).
      destruct (find_qdl_tty_scans env path PATH_MAX _ _ _ F)
        as (w1 & A1 & F1).
      destruct (scan_events_quiet _ F1) as [S1 N1].
      destruct (IH path (log (Sleep 1) (log waiting s)))
        as (evs & st' & T & A & N & Sl).
      exists (evs ++ [Sleep 1; waiting] ++ w1), st'.
      split; [now rewrite R|].
      split.
      { eapply after_trans; [|exact A].
        eapply after_trans; [exact A1|]. now split. }
      rewrite !notices_app, !sleeps_app, N, Sl, S1, N1.
      unfold notices, sleeps. simpl. split; lia.
  - intros fuel path st fd old st' H.
    exact (tty_open_returns_after_match env fuel path _ _ _ _ H).
  - intros fuel argv st1 U L N.
    rewrite (main_phases _ _ _ U). unfold exit_status.
    rewrite (bind_ret _ _ _ _ _ L).
    destruct N as [N|N].
    + now rewrite (bind_exit _ _ _ _ _
                     (proj1 (NS fuel EmptyString st1) N)).
    + now rewrite (bind_exit _ _ _ _ _
                     (proj2 (NS fuel EmptyString st1) N)).
Qed.

(** A world whose device shows up after five sleeps is still waiting after
    two rounds; a deserted world is still waiting after three; once the
    device is there [tty_open] returns after the scan that met it; a world
    without sysfs, and one whose sysfs is no directory, end the run with
    status 1. *)
Lemma no_device_is_not_fatal_witness :
  (exists s,
      tty_open (World.world 5 0 0 0) 2 EmptyString init
      = tty_open (World.world 5 0 0 0) 1 EmptyString
          (log (Sleep 1) (log waiting s))) /\
  (exists evs st',
      tty_open World.deserted 3 EmptyString init = (Blocked, st') /\
      after init evs st' /\ notices evs = 3%nat /\ sleeps evs = 3%nat) /\
  (exists w0 s0 entries p s,
      trace s0 = w0 ++ trace init /\
      sys_class_tty (World.world 1 0 0 0) s0 = Listing entries /\
      existsb matches entries = true /\
      trace (snd (tty_open (World.world 1 0 0 0) 2 EmptyString init))
      = Tcsetattr 3 qdl_tios :: Tcflush 3 :: Tcgetattr 3 :: Open p
        :: trace s) /\
  exit_status
    (main World.no_sysfs 1 ["qdl"; "prog.mbn"; "patch0.xml"]%string init)
  = Some 1 /\
  exit_status
    (main Lab.no_stream 1 ["qdl"; "prog.mbn"; "patch0.xml"]%string init)
  = Some 1.
Proof.
  split; [|split; [|split; [|split]]].
  - destruct (proj1 (no_device_is_not_fatal (World.world 5 0 0 0))
                1%nat EmptyString init [World.ttyS0; World.ttyUSB0]
                eq_refl eq_refl) as (s & _ & R).
    exists s. exact R.
  - apply (proj1 (proj2 (no_device_is_not_fatal World.deserted))).
    intros st. exists [World.ttyS0; World.ttyUSB0]. now split.
  - destruct (proj1 (proj2 (proj2 (no_device_is_not_fatal
                                     (World.world 1 0 0 0))))
                2%nat EmptyString init 3 World.cooked _ eq_refl)
      as (w0 & s0 & entries & path0 & p & scanned & s
          & A0 & _ & _ & L & X & _ & _ & _ & T).
    exists w0, s0, entries, p, s. now repeat split.
  - exact (proj2 (proj2 (proj2 (proj2 (no_device_is_not_fatal World.no_sysfs))))
             O ["qdl"; "prog.mbn"; "patch0.xml"]%string _
             eq_refl eq_refl (or_introl eq_refl)).
  - exact (proj2 (proj2 (proj2 (proj2 (no_device_is_not_fatal Lab.no_stream))))
             O ["qdl"; "prog.mbn"; "patch0.xml"]%string _
             eq_refl eq_refl (or_intror eq_refl)).
Defined.

(** * Further properties of [qdl.c] *)

(** ** What [readat] leaves in the buffer *)

Lemma substring_is_prefix (k : nat) (s : string) :
  exists t, s = (substring 0 k s ++ t)%string.
Proof.
  revert k. induction s as [|c s IH]; intros [|k]; simpl;
    try (eexists; reflexivity).
  destruct (IH k) as [t E]. exists t. now rewrite <- E.
Qed.

Lemma c_str_is_prefix (b : string) : exists t, b = (c_str b ++ t)%string.
Proof.
  induction b as [|c b [t E]]; [now exists EmptyString|].
  rewrite c_str_cons. destruct (Ascii.eqb c NUL).
  - eexists. reflexivity.
  - exists t. cbn [append]. now rewrite <- E.
Qed.

Lemma length_substring_le (n : nat) (s : string) :
  (String.length (substring 0 n s) <= n)%nat.
Proof.
  revert n. induction s as [|c s IH]; intros [|n]; simpl; try lia.
  specialize (IH n). lia.
Qed.

Lemma mem_append (c : ascii) (a b : string) :
  mem c (a ++ b) = mem c a || mem c b.
Proof.
  induction a as [|d a IH]; [reflexivity|].
  cbn [append]. rewrite !mem_cons, IH. now rewrite orb_assoc.
Qed.

Lemma c_str_no_nul (b : string) : mem NUL (c_str b) = false.
Proof.
  induction b as [|c b IH]; [reflexivity|].
  rewrite c_str_cons. destruct (Ascii.eqb c NUL) eqn:E; [reflexivity|].
  rewrite mem_cons, Ascii.eqb_sym, E. exact IH.
Qed.

Lemma cut_no_newline (s : string) :
  mem LF (substring 0 (strcspn s (chr LF)) s) = false.
Proof.
  induction s as [|c s IH]; [reflexivity|].
  rewrite strcspn_cons. unfold chr at 1. rewrite mem_cons.
  cbn [mem]. rewrite orb_false_r.
  destruct (Ascii.eqb c LF) eqn:E; [reflexivity|].
  cbn [substring]. rewrite mem_cons, Ascii.eqb_sym, E. exact IH.
Qed.

Lemma c_str_id (s : string) : mem NUL s = false -> c_str s = s.
Proof.
  induction s as [|c s IH]; [reflexivity|]. rewrite mem_cons. intros H.
  apply orb_false_iff in H. destruct H as [Hc Hs].
  rewrite c_str_cons, Ascii.eqb_sym, Hc. now rewrite (IH Hs).
Qed.

Lemma prefix_of_append (p t : string) : String.prefix p (p ++ t) = true.
Proof.
  induction p as [|c p IH]; [now destruct t|].
  cbn [append String.prefix]. now destruct (ascii_dec c c).
Qed.

Lemma prefix_split (p s : string) :
  String.prefix p s = true -> exists t, s = (p ++ t)%string.
Proof.
  revert s. induction p as [|c p IH]; intros s H; [now exists s|].
  destruct s as [|d s]; [discriminate|]. cbn [String.prefix] in H.
  destruct (ascii_dec c d) as [->|]; [|discriminate].
  destruct (IH _ H) as [t ->]. now exists t.
Qed.

Lemma append_assoc (a b c : string) :
  ((a ++ b) ++ c)%string = (a ++ (b ++ c))%string.
Proof. induction a as [|d a IH]; [reflexivity|]. cbn [append]. now rewrite IH. Qed.

Lemma append_same_length (p t s : string) :
  s = (p ++ t)%string -> (String.length s <= String.length p)%nat -> s = p.
Proof.
  intros -> H. rewrite length_append in H.
  destruct t as [|c t]; simpl in H; [|lia].
  clear H. induction p as [|c p IH]; [reflexivity|].
  cbn [append]. now rewrite IH.
Qed.

(** X1.  When [readat] reports success, the string it leaves fits the
    buffer of [len] bytes together with its NUL, holds no NUL and no
    newline, and is the beginning of what the file holds; the state of the
    machine is as before. *)
Theorem readat_fits_buffer (file : attr) (name : string) (len : nat)
        (st : state) (buf : string) (st' : state) :
  (1 <= len)%nat ->
  readat file name len st = (Ret (0, buf), st') ->
  st' = st /\
  (String.length buf < len)%nat /\
  mem NUL buf = false /\ mem LF buf = false /\
  exists data, file = Content data /\ String.prefix buf data = true.
Proof.
  intros Hlen H. destruct file as [| |data]; revert H; simpl; run;
    intros H; inversion H; subst.
  split; [reflexivity|]. unfold read_token.
  set (cut := substring 0 (len - 1) data).
  destruct (substring_is_prefix (strcspn (c_str cut) (chr LF)) (c_str cut))
    as [t1 E1].
  destruct (c_str_is_prefix cut) as [t2 E2].
  destruct (substring_is_prefix (len - 1) data) as [t3 E3]. fold cut in E3.
  set (tok := substring 0 (strcspn (c_str cut) (chr LF)) (c_str cut)) in *.
  pose proof (f_equal String.length E1) as L1. rewrite length_append in L1.
  pose proof (f_equal String.length E2) as L2. rewrite length_append in L2.
  pose proof (length_substring_le (len - 1) data) as L3. fold cut in L3.
  split; [lia|]. split; [|split].
  - pose proof (c_str_no_nul cut) as N. rewrite E1, mem_append in N.
    now apply orb_false_iff in N.
  - apply cut_no_newline.
  - exists data. split; [reflexivity|].
    rewrite E3, E2, E1, !append_assoc.
    apply prefix_of_append.
Qed.

Lemma readat_fits_buffer_witness :
  (String.length "05c6" < 5)%nat /\
  String.prefix "05c6" ("05c6" ++ chr LF) = true.
Proof.
  destruct (readat_fits_buffer (Content ("05c6" ++ chr LF))
              "../../../../idVendor" 5 init "05c6" init
              ltac:(lia) eq_refl) as (_ & L & _ & _ & data & E & P).
  split; [exact L|]. injection E as <-. exact P.
Defined.

(** ** Which attribute files match *)

Lemma cut_id (s : string) :
  mem LF s = false -> substring 0 (strcspn s (chr LF)) s = s.
Proof.
  induction s as [|c s IH]; [reflexivity|]. rewrite mem_cons. intros H.
  apply orb_false_iff in H. destruct H as [Hc Hs].
  rewrite strcspn_cons. unfold chr at 1.
  rewrite mem_cons, Ascii.eqb_sym, Hc. cbn [mem orb substring].
  now rewrite (IH Hs).
Qed.

(** A string of four plain characters is what [readat] reads into its
    five-byte buffer exactly from the files that begin with it. *)
Lemma read_token_decides (expected data : string) :
  String.length expected = 4%nat ->
  mem NUL expected = false -> mem LF expected = false ->
  String.eqb (read_token 5 data) expected = String.prefix expected data.
Proof.
  intros L N0 Nl. unfold read_token. change (5 - 1)%nat with 4%nat.
  destruct (String.prefix expected data) eqn:P.
  - apply String.prefix_correct in P. rewrite L in P. rewrite P.
    rewrite (c_str_id _ N0), (cut_id _ Nl). apply String.eqb_refl.
  - apply String.eqb_neq. intros E.
    set (cut := substring 0 4 data) in *.
    destruct (substring_is_prefix (strcspn (c_str cut) (chr LF)) (c_str cut))
      as [t1 E1].
    destruct (c_str_is_prefix cut) as [t2 E2].
    rewrite E in E1.
    pose proof (length_substring_le 4 data) as L3. fold cut in L3.
    pose proof (f_equal String.length E2) as L2.
    rewrite length_append in L2.
    pose proof (f_equal String.length E1) as L1.
    rewrite length_append in L1.
    assert (C1 : c_str cut = expected)
      by (apply (append_same_length _ t1); [exact E1|lia]).
    assert (C2 : cut = c_str cut)
      by (apply (append_same_length _ t2); [exact E2|lia]).
    assert (P' : String.prefix expected data = true).
    { apply String.prefix_correct. rewrite L. fold cut. congruence. }
    congruence.
Qed.

(** C4 (corrected).  The claim as worded is refuted: the newline-terminated
    token of the vendor file of [Lab.ttyUSB8] is [05c6ff], which is not
    [05c6], and the scan accepts the entry all the same, because [readat]
    hands back four bytes at most. *)
Lemma candidate_accepted_on_longer_token :
  newline_terminated_token ("05c6ff" ++ chr LF) = "05c6ff"%string /\
  newline_terminated_token ("05c6ff" ++ chr LF) <> "05c6"%string /\
  idVendor Lab.ttyUSB8 = Content ("05c6ff" ++ chr LF) /\
  exists st',
    scan_entry PATH_MAX Lab.ttyUSB8 (- ENOENT, EmptyString) init
    = (Ret (0, "/dev/ttyUSB8"%string), st').
Proof.
  split; [reflexivity|]. split; [discriminate|]. split; [reflexivity|].
  eexists. reflexivity.
Qed.

(** C4 (as amended).  The token of an attribute file is what [readat]
    leaves in its five-byte buffer when it succeeds: the newline-terminated
    token of the first four bytes of the file.  For a file whose first line
    has at most four characters it is that line, unchanged; in general it
    is [05c6] (or [9008]) exactly when the file begins with these four
    bytes.  An entry whose name begins with [ttyUSB] is accepted exactly
    when its directory opens and its vendor token is [05c6] and its product
    token is [9008], by exact equality of strings: the round then reports
    success with its device node.  Every other such entry -- the directory
    does not open, an attribute file cannot be opened or read, a token
    differs -- is passed over: the round leaves the result as it was.  In
    both cases the loop goes on with the entries that follow. *)
Theorem candidate_accepted_iff_buffers_equal (len : nat) (de : dirent)
        (v : Z * string) (st : state) (rest : list dirent) :
  (1 <= len)%nat ->
  String.prefix "ttyUSB" (d_name de) = true ->
  (forall file name st0 t,
      token file = Some t <->
      exists r st1, readat file name 5 st0 = (Ret (r, t), st1) /\
                    (r <? 0) = false) /\
  (forall data,
      token (Content data)
      = Some (newline_terminated_token (c_str (substring 0 4 data)))) /\
  (forall line more,
      mem NUL line = false -> mem LF line = false ->
      (String.length line <= 4)%nat ->
      token (Content (line ++ chr LF ++ more)) = Some line) /\
  (forall data,
      (token (Content data) = Some "05c6"%string <->
       String.prefix "05c6" data = true) /\
      (token (Content data) = Some "9008"%string <->
       String.prefix "9008" data = true)) /\
  exists st',
    (d_opens de = true /\
     token (idVendor de) = Some "05c6"%string /\
     token (idProduct de) = Some "9008"%string ->
     scan_entry len de v st
     = (Ret (0, snprintf len ("/dev/" ++ d_name de)), st') /\
     scan len (de :: rest) v st
     = scan len rest (0, snprintf len ("/dev/" ++ d_name de)) st') /\
    (~ (d_opens de = true /\
        token (idVendor de) = Some "05c6"%string /\
        token (idProduct de) = Some "9008"%string) ->
     scan_entry len de v st = (Ret v, st') /\
     scan len (de :: rest) v st = scan len rest v st').
Proof.
  intros _ P. split; [intros; apply readat_token|].
  split; [reflexivity|].
  split; [intros; simpl; f_equal; now apply read_token_line|].
  split.
  { intros data. simpl. split; split; intros H.
    - injection H as H. apply String.eqb_eq in H.
      now rewrite read_token_decides in H.
    - f_equal. apply String.eqb_eq. now rewrite read_token_decides.
    - injection H as H. apply String.eqb_eq in H.
      now rewrite read_token_decides in H.
    - f_equal. apply String.eqb_eq. now rewrite read_token_decides. }
  destruct (scan_entry_spec len de v st) as (st' & E & _ & _).
  exists st'. unfold matches, candidate in E. rewrite P in E. simpl in E.
  split.
  - intros (Ho & HV & HP).
    apply token_is_true in HV, HP. rewrite Ho, HV, HP in E. simpl in E.
    split; [exact E|]. simpl scan. now rewrite (bind_ret _ _ _ _ _ E).
  - intros N.
    assert (F : d_opens de && token_is (idVendor de) "05c6"
                && token_is (idProduct de) "9008" = false).
    { apply not_true_is_false. intros T. apply andb_true_iff in T.
      destruct T as [T T2]. apply andb_true_iff in T. destruct T as [T0 T1].
      apply token_is_true in T1, T2. now apply N. }
    rewrite F in E.
    split; [exact E|]. simpl scan. now rewrite (bind_ret _ _ _ _ _ E).
Qed.

(** An entry that is accepted, one whose vendor token differs in case, and
    one whose directory does not open. *)
Lemma candidate_accepted_iff_buffers_equal_witness :
  (exists st',
      scan_entry PATH_MAX World.ttyUSB1 (- ENOENT, EmptyString) init
      = (Ret (0, "/dev/ttyUSB1"%string), st')) /\
  (exists st',
      scan_entry PATH_MAX World.ttyUSB4 (- ENOENT, EmptyString) init
      = (Ret (- ENOENT, EmptyString), st')) /\
  (exists st',
      scan_entry PATH_MAX Lab.ttyUSB5 (- ENOENT, EmptyString) init
      = (Ret (- ENOENT, EmptyString), st')).
Proof.
  assert (L : (1 <= PATH_MAX)%nat) by (unfold PATH_MAX; lia).
  split; [|split].
  - destruct (candidate_accepted_iff_buffers_equal PATH_MAX World.ttyUSB1
                (- ENOENT, EmptyString) init [] L eq_refl)
      as (_ & _ & _ & _ & st' & A & _).
    exists st'. exact (proj1 (A (conj eq_refl (conj eq_refl eq_refl)))).
  - destruct (candidate_accepted_iff_buffers_equal PATH_MAX World.ttyUSB4
                (- ENOENT, EmptyString) init [] L eq_refl)
      as (_ & _ & _ & _ & st' & _ & R).
    exists st'. apply R. intros (_ & HV & _). discriminate HV.
  - destruct (candidate_accepted_iff_buffers_equal PATH_MAX Lab.ttyUSB5
                (- ENOENT, EmptyString) init [] L eq_refl)
      as (_ & _ & _ & _ & st' & _ & R).
    exists st'. apply R. intros (Ho & _). discriminate Ho.
Defined.

(** X2.  For an entry whose name begins with [ttyUSB], whose directory
    opens and whose two attribute files can be read, the round of the scan
    (with a buffer for the device name of at least one byte) is decided by
    the first four bytes of each file alone: the entry is taken exactly
    when the vendor file begins with [05c6] and the product file with
    [9008], whatever follows these bytes. *)
Theorem first_four_bytes_decide (len : nat) (de : dirent) (v : Z * string)
        (st : state) (vendor product : string) :
  (1 <= len)%nat ->
  String.prefix "ttyUSB" (d_name de) = true ->
  d_opens de = true ->
  idVendor de = Content vendor ->
  idProduct de = Content product ->
  exists st',
    scan_entry len de v st
    = (Ret (if String.prefix "05c6" vendor && String.prefix "9008" product
            then (0, snprintf len ("/dev/" ++ d_name de))
            else v), st').
Proof.
  intros _ Hp Ho Hv Hd.
  destruct (scan_entry_spec len de v st) as (st' & E & _).
  exists st'. rewrite E. do 2 f_equal.
  unfold matches, candidate, token_is, token. rewrite Hp, Ho, Hv, Hd.
  now rewrite !read_token_decides.
Qed.

(** The vendor file goes on after the four characters and has no
    newline. *)
Lemma first_four_bytes_decide_witness :
  exists st',
    scan_entry PATH_MAX Lab.ttyUSB9 (- ENOENT, EmptyString) init
    = (Ret (0, "/dev/ttyUSB9"%string), st').
Proof.
  destruct (first_four_bytes_decide PATH_MAX Lab.ttyUSB9
              (- ENOENT, EmptyString) init "05c6 Qualcomm" "9008"
              ltac:(unfold PATH_MAX; lia)
              eq_refl eq_refl eq_refl eq_refl) as [st' E].
  exists st'. exact E.
Defined.

(** ** What a scan reports *)

Lemma rounds_filter (len : nat) (entries : list dirent) :
  forall v, rounds len entries v = rounds len (filter matches entries) v.
Proof.
  unfold rounds. induction entries as [|de rest IH]; intros v; [reflexivity|].
  simpl. unfold round at 2. destruct (matches de) eqn:M.
  - simpl. unfold round at 3. rewrite M. apply IH.
  - apply IH.
Qed.

Lemma existsb_filter_nil (entries : list dirent) :
  existsb matches entries = false -> filter matches entries = [].
Proof.
  induction entries as [|de rest IH]; [reflexivity|]. simpl. intros H.
  apply orb_false_iff in H. destruct H as [H1 H2]. rewrite H1. now apply IH.
Qed.

(** X3.  A scan that can list [/sys/class/tty] always returns to its
    caller, having closed the directory last.  It reports 0 exactly when
    some entry matches, and otherwise [-ENOENT] with [dev_name] as it was.
    Its result is decided by the matching entries alone: two listings with
    the same matching entries in the same order give the same result. *)
Theorem find_qdl_tty_result (env : Env) (dev_name : string) (len : nat)
        (st : state) (entries : list dirent) :
  sys_class_tty env st = Listing entries ->
  exists v st',
    find_qdl_tty env dev_name len st = (Ret v, st') /\
    (exists older, trace st' = CloseDir "/sys/class/tty" :: older) /\
    (existsb matches entries = true -> fst v = 0) /\
    (existsb matches entries = false -> v = (- ENOENT, dev_name)) /\
    (forall env2 st2 entries2,
        sys_class_tty env2 st2 = Listing entries2 ->
        filter matches entries2 = filter matches entries ->
        fst (find_qdl_tty env2 dev_name len st2) = Ret v).
Proof.
  intros L.
  destruct (find_qdl_tty_listing env dev_name len st entries L)
    as (st' & E & _).
  eexists _, st'. split; [exact E|]. split; [|split; [|split]].
  - revert E. unfold find_qdl_tty. unfold bind at 1. unfold call at 1.
    rewrite L.
    destruct (scan_spec len entries (- ENOENT, dev_name)
                (log (OpenDir "/sys/class/tty") st)) as (s1 & E1 & _).
    rewrite (bind_ret _ _ _ _ _ E1). run. intros E. injection E as <-.
    now eexists.
  - intros X. now apply rounds_match_zero.
  - intros X. apply rounds_no_match. now apply no_match_forallb.
  - intros env2 st2 entries2 L2 F.
    destruct (find_qdl_tty_listing env2 dev_name len st2 entries2 L2)
      as (st2' & E2 & _).
    rewrite E2. simpl. f_equal.
    now rewrite (rounds_filter len entries2), F, <- rounds_filter.
Qed.

Lemma find_qdl_tty_result_witness :
  exists st',
    find_qdl_tty World.deserted "/dev/ttyUSB7" PATH_MAX init
    = (Ret (- ENOENT, "/dev/ttyUSB7"%string), st').
Proof.
  destruct (find_qdl_tty_result World.deserted "/dev/ttyUSB7" PATH_MAX init
              [World.ttyS0; World.ttyUSB0] eq_refl)
    as (v & st' & E & _ & _ & N & _).
  exists st'. rewrite E, (N eq_refl). reflexivity.
Defined.

(** ** The parts of a run *)

Lemma tty_setup_emits (env : Env) (path : string) :
  emits open_event (tty_setup env path).
Proof. unfold tty_setup. repeat emits_step. Qed.

Lemma tty_open_emits (env : Env) (fuel : nat) :
  forall path, emits tty_open_event (tty_open env fuel path).
Proof.
  induction fuel as [|fuel IH]; intros path; simpl; [auto with emits|].
  apply emits_bind.
  { eapply emits_impl; [|apply find_qdl_tty_emits]. now left. }
  intros [r p]. destruct (r <? 0).
  - apply emits_bind; [apply emits_emit; left; apply lo_notice|intros _].
    apply emits_bind; [apply emits_emit; left; apply lo_sleep|intros _].
    apply IH.
  - eapply emits_impl; [|apply tty_setup_emits]. now right.
Qed.

(** The trace of every run of [main] falls into three parts: the start-up
    (usage line or loading), then what [tty_open] did, then the tail of
    [main].  The flag [qdl_debug] is at the end what the command line made
    it. *)
Lemma main_trace_parts (env : Env) (fuel : nat) (argv : list string)
      (r : result Z) (st : state) :
  main env fuel argv init = (r, st) ->
  qdl_debug st = has_debug argv /\
  exists finish dev loading,
    trace st = finish ++ dev ++ loading /\
    Forall finish_event finish /\
    Forall tty_open_event dev /\
    Forall (startup_event env) loading /\
    ((usage_ok argv = false /\ r = Ret 1 /\
      finish = [] /\ dev = [] /\ loading = [Stderr (usage env)])
     \/
     (usage_ok argv = true /\
      exists r1 st1,
        load_files env (descriptor_files argv) (start argv) = (r1, st1) /\
        trace st1 = loading /\
        ((r1 = Exit 1 /\ r = Exit 1 /\ finish = [] /\ dev = [])
         \/
         (r1 = Ret tt /\
          exists r2 st2,
            tty_open env fuel EmptyString st1 = (r2, st2) /\
            trace st2 = dev ++ loading /\
            ((exists fd old, r2 = Ret (fd, old) /\ r = Ret 0)
             \/ ((r2 = Exit 1 \/ r2 = Blocked) /\ finish = [] /\
                 (r2 = Exit 1 -> r = Exit 1) /\
                 (r2 = Blocked -> r = Blocked))))))).
Proof.
  intros H. destruct (usage_ok argv) eqn:U.
  2:{ rewrite (main_usage _ _ _ U) in H. injection H as <- <-.
      split; [reflexivity|]. exists [], [], [Stderr (usage env)].
      split; [reflexivity|]. split; [constructor|]. split; [constructor|].
      split; [constructor; [now left|constructor]|].
      left. now repeat split. }
  rewrite (main_phases _ _ _ U) in H. unfold bind at 1 in H.
  remember (load_files env (descriptor_files argv) (start argv)) as lf eqn:L.
  destruct lf as [r1 st1]. symmetry in L.
  destruct (load_files_emits env _ _ _ _ L) as (loading & [A1 D1] & F1).
  rewrite start_after_init, app_nil_r in A1. simpl in D1.
  assert (S1 : Forall (startup_event env) loading)
    by (eapply Forall_impl; [|exact F1]; intros e He; now right).
  destruct (load_files_cases _ _ _ _ _ L) as [-> | ->].
  2:{ injection H as <- <-. split; [exact D1|].
      exists [], [], loading. rewrite A1.
      split; [reflexivity|]. split; [constructor|]. split; [constructor|].
      split; [exact S1|]. right. split; [reflexivity|].
      exists (Exit 1), st1. split; [first [exact L | reflexivity]|]. split; [exact A1|].
      left. now repeat split. }
  unfold bind at 1 in H.
  remember (tty_open env fuel EmptyString st1) as to eqn:T.
  destruct to as [r2 st2]. symmetry in T.
  destruct (tty_open_emits env fuel _ _ _ _ T) as (dev & [A2 D2] & F2).
  assert (T2 : trace st2 = dev ++ loading) by now rewrite A2, A1.
  destruct (tty_open_spec env fuel _ _ _ _ T)
    as (w & s & _ & _ & C).
  assert (R2 : (exists fd old, r2 = Ret (fd, old) /\ 0 <= fd)
               \/ r2 = Exit 1 \/ r2 = Blocked).
  { destruct C as [[_ [-> | ->]]|(p0 & w0 & s0 & en & p & _ & _ & _ & _ & S)];
      auto.
    destruct (tty_setup_spec _ _ _ _ _ S)
      as [(fd & old & -> & Hfd & _)|[-> _]]; auto.
    left. now exists fd, old. }
  destruct R2 as [(fd & old & -> & Hfd)|R2].
  - destruct (run_engines_spec env (prog_mbn_of argv) fd old st2 Hfd)
      as (engines & warning & E & He & Hw).
    rewrite E in H. injection H as <- <-.
    split; [simpl; congruence|].
    exists (Close fd :: warning ++ Tcsetattr fd old :: engines), dev, loading.
    cbn [trace]. rewrite T2.
    split; [simpl; rewrite <- app_assoc; reflexivity|].
    split.
    { constructor; [constructor|]. apply Forall_app. split.
      + destruct (tcsetattr env _ fd old <? 0); subst warning;
          repeat constructor.
      + constructor; [constructor|].
        destruct (sahara_run env st2 fd (prog_mbn_of argv) <? 0);
          subst engines; repeat constructor. }
    split; [exact F2|split; [exact S1|]].
    right. split; [reflexivity|]. exists (Ret tt), st1.
    split; [first [exact L | reflexivity]|]. split; [exact A1|]. right.
    split; [reflexivity|]. exists (Ret (fd, old)), st2.
    split; [first [exact T | reflexivity]|]. split; [exact T2|]. left. now exists fd, old.
  - assert (Hr : (r, st) = match r2 with
                           | Ret _ => (r, st)
                           | Exit c => (Exit c, st2)
                           | Blocked => (Blocked, st2)
                           end)
      by (destruct R2 as [-> | ->]; now rewrite H).
    assert (Hst : st = st2)
      by (destruct R2 as [-> | ->]; now injection Hr).
    subst st. split; [congruence|].
    exists [], dev, loading. rewrite T2.
    split; [reflexivity|]. split; [constructor|].
    split; [exact F2|split; [exact S1|]].
    right. split; [reflexivity|]. exists (Ret tt), st1.
    split; [first [exact L | reflexivity]|]. split; [exact A1|]. right.
    split; [reflexivity|]. exists r2, st2.
    split; [first [exact T | reflexivity]|]. split; [exact T2|]. right.
    split; [exact R2|]. split; [reflexivity|].
    split; intros ->; now injection Hr.
Qed.

(** ** Which device nodes are opened *)

Lemma opened_cons (e : event) (tr : list event) :
  opened (e :: tr)
  = opened tr ++ match e with Open p => [p] | _ => [] end.
Proof.
  unfold opened. simpl. rewrite flat_map_app. simpl. now rewrite app_nil_r.
Qed.

Lemma opened_app (a b : list event) : opened (a ++ b) = opened b ++ opened a.
Proof. unfold opened. now rewrite rev_app_distr, flat_map_app. Qed.

Lemma opened_none (P : event -> Prop) (evs : list event) :
  (forall e p, P e -> e <> Open p) -> Forall P evs -> opened evs = [].
Proof.
  intros HP F. induction F as [|e evs He F IH]; [reflexivity|].
  rewrite opened_cons, IH. destruct e; try reflexivity.
  now destruct (HP _ path He).
Qed.

Lemma finish_event_not_open (e : event) (p : string) :
  finish_event e -> e <> Open p.
Proof. destruct 1; discriminate. Qed.

Lemma startup_event_not_open (env : Env) (e : event) (p : string) :
  startup_event env e -> e <> Open p.
Proof. intros [->|H]; [discriminate|destruct H; discriminate]. Qed.

Lemma locate_event_not_open (e : event) (p : string) :
  locate_event e -> e <> Open p.
Proof. destruct 1 as [e H| |]; [destruct H|..]; discriminate. Qed.

Lemma tty_setup_opened (env : Env) (p : string) (s : state)
      (r : result (Z * termios)) (st' : state) :
  tty_setup env p s = (r, st') ->
  exists evs, after s evs st' /\ opened evs = [p].
Proof.
  unfold tty_setup. run.
  destruct (sys_open env s p <? 0); simpl.
  { intros H; injection H as <- <-. eexists [_; _]. now split. }
  destruct (tcgetattr env (log (Open p) s) (sys_open env s p)) as [rg old].
  destruct (rg <? 0); simpl.
  { intros H; injection H as <- <-. eexists [_; _; _]. now split. }
  match goal with
  | |- context [tcsetattr env ?st ?fd qdl_tios <? 0] =>
      destruct (tcsetattr env st fd qdl_tios <? 0)
  end; simpl.
  { intros H; injection H as <- <-. eexists [_; _; _; _; _]. now split. }
  intros H; injection H as <- <-. eexists [_; _; _; _]. now split.
Qed.

Lemma rounds_match_path (len : nat) (entries : list dirent) :
  forall v,
    existsb matches entries = true ->
    exists de,
      In de entries /\ matches de = true /\
      rounds len entries v = (0, snprintf len ("/dev/" ++ d_name de)).
Proof.
  induction entries as [|de rest IH]; intros v X; [discriminate|].
  destruct (existsb matches rest) eqn:Xr.
  - destruct (IH (round len v de) eq_refl) as (de' & I & M & R).
    exists de'. split; [now right|]. split; [exact M|exact R].
  - simpl in X. rewrite Xr, orb_false_r in X.
    exists de. split; [now left|]. split; [exact X|].
    change (rounds len (de :: rest) v) with (rounds len rest (round len v de)).
    rewrite (rounds_no_match _ _ _ (no_match_forallb _ Xr)).
    unfold round. now rewrite X.
Qed.

Lemma prefix_substring (p t : string) :
  forall n, (String.length p <= n)%nat ->
            String.prefix p (substring 0 n (p ++ t)) = true.
Proof.
  induction p as [|c p IH]; intros n H.
  - now destruct (substring 0 n (EmptyString ++ t)).
  - destruct n as [|n]; simpl in H; [lia|].
    cbn [append substring String.prefix].
    destruct (ascii_dec c c); [|contradiction]. apply IH. lia.
Qed.

Lemma matching_node (de : dirent) :
  matches de = true ->
  String.prefix "/dev/ttyUSB" (snprintf PATH_MAX ("/dev/" ++ d_name de)) = true.
Proof.
  unfold matches, candidate. intros M.
  apply andb_true_iff in M. destruct M as [M _].
  apply andb_true_iff in M. destruct M as [M _].
  apply andb_true_iff in M. destruct M as [M _].
  destruct (prefix_split _ _ M) as [t ->].
  change ("/dev/" ++ "ttyUSB" ++ t)%string with ("/dev/ttyUSB" ++ t)%string.
  unfold snprintf. apply prefix_substring. unfold PATH_MAX. simpl. lia.
Qed.

Lemma tty_open_opens (env : Env) (fuel : nat) (path : string) (st : state)
      (r : result (Z * termios)) (st' : state) :
  tty_open env fuel path st = (r, st') ->
  exists evs,
    after st evs st' /\
    (opened evs = [] \/
     exists p, opened evs = [p] /\ String.prefix "/dev/ttyUSB" p = true).
Proof.
  intros H.
  destruct (tty_open_spec env fuel _ _ _ _ H) as (w & s & A & F & C).
  assert (Ow : opened w = [])
    by (eapply opened_none; [apply locate_event_not_open | exact F]).
  destruct C as [[-> _]|(path0 & w0 & s0 & entries & p & _ & L & X & Ef & S)].
  - exists w. split; [exact A|now left].
  - destruct (tty_setup_opened _ _ _ _ _ S) as (evs & A2 & O2).
    exists (evs ++ w). split; [eapply after_trans; eassumption|].
    right. exists p. rewrite opened_app, Ow, O2. split; [reflexivity|].
    destruct (find_qdl_tty_listing env path0 PATH_MAX s0 entries L)
      as (s' & Ef' & _).
    destruct (rounds_match_path PATH_MAX entries (- ENOENT, path0) X)
      as (de & _ & M & R').
    assert (R : (0, p) = (0, snprintf PATH_MAX ("/dev/" ++ d_name de)))
      by congruence.
    injection R as ->. now apply matching_node.
Qed.

(** X4.  Whatever the command line and the world, a run of [main] opens at
    most one device node, and the node it opens has a path that begins
    with [/dev/ttyUSB].  An open that fails is not tried again. *)
Theorem opens_one_ttyUSB_node (env : Env) (fuel : nat) (argv : list string) :
  opened (trace (snd (main env fuel argv init))) = [] \/
  exists p,
    opened (trace (snd (main env fuel argv init))) = [p] /\
    String.prefix "/dev/ttyUSB" p = true.
Proof.
  destruct (main env fuel argv init) as [r st] eqn:H. cbn [snd].
  destruct (main_trace_parts _ _ _ _ _ H)
    as (_ & fin & dev & loading & -> & Ff & _ & Fl & D).
  rewrite !opened_app.
  rewrite (opened_none _ _ finish_event_not_open Ff).
  rewrite (opened_none _ _ (startup_event_not_open env) Fl).
  rewrite app_nil_r. cbn [app].
  destruct D as [(_ & _ & _ & -> & _)
                |(_ & r1 & st1 & _ & T1 & [(_ & _ & _ & ->)
                                         |(_ & r2 & st2 & T & T2 & _)])];
    [now left|now left|].
  destruct (tty_open_opens _ _ _ _ _ _ T) as (evs & [A _] & O).
  rewrite T1 in A. rewrite T2 in A. apply app_inv_tail in A. now subst evs.
Qed.

(** ** The engines *)

Lemma engine_events_none (P : event -> Prop) (evs : list event) :
  (forall e, P e -> engine_event e = false) ->
  Forall P evs -> engine_events evs = [].
Proof.
  intros HP F. induction F as [|e evs He F IH]; [reflexivity|].
  unfold engine_events in *. simpl. now rewrite (HP e He).
Qed.

Lemma load_event_not_engine (e : event) :
  load_event e -> engine_event e = false.
Proof. now destruct 1. Qed.

Lemma locate_event_not_engine (e : event) :
  locate_event e -> engine_event e = false.
Proof. destruct 1 as [e H| |]; [now destruct H|reflexivity|reflexivity]. Qed.

(** X5.  In a run that holds the transport and in which [sahara_run] does
    not answer a negative value, [firehose_run] is called once, after
    [sahara_run], on the same descriptor; these are the only calls of the
    engines in the run.  Whatever [firehose_run] answers, the run goes on
    to the restoration and [main] returns 0. *)
Theorem handshake_success_runs_commands (env : Env) (fuel : nat)
        (argv : list string) (fd : Z) (old : termios) (st2 : state) :
  acquired env fuel argv fd old st2 ->
  0 <= sahara_run env st2 fd (prog_mbn_of argv) ->
  exists warning st3,
    main env fuel argv init = (Ret 0, st3) /\
    trace st3
    = Close fd :: warning ++ Tcsetattr fd old
      :: FirehoseRun fd :: SaharaRun fd (prog_mbn_of argv) :: trace st2 /\
    engine_events (trace st3)
    = [FirehoseRun fd; SaharaRun fd (prog_mbn_of argv)].
Proof.
  intros Ha Hs.
  destruct (acquired_trace _ _ _ _ _ _ Ha)
    as (loading & w & p & Hst2 & F1 & F2 & Hfd & _).
  destruct (run_engines_spec env (prog_mbn_of argv) fd old st2 Hfd)
    as (engines & warning & E & He & Hw).
  apply Z.ltb_ge in Hs. rewrite Hs in He. subst engines.
  destruct Ha as (U & st1 & L & T).
  exists warning. eexists. split.
  { rewrite (main_phases _ _ _ U).
    rewrite (bind_ret _ _ _ _ _ L), (bind_ret _ _ _ _ _ T). exact E. }
  split; [reflexivity|]. cbn [trace].
  assert (N1 : engine_events loading = [])
    by (eapply engine_events_none; [apply load_event_not_engine | exact F1]).
  assert (N2 : engine_events w = [])
    by (eapply engine_events_none; [apply locate_event_not_engine | exact F2]).
  assert (Nw : engine_events warning = [])
    by (destruct (tcsetattr env _ fd old <? 0); now subst).
  unfold engine_events in *. cbn [filter engine_event].
  rewrite filter_app, Nw. cbn [filter engine_event app].
  rewrite Hst2. cbn [trace filter engine_event].
  now rewrite filter_app, N1, N2.
Qed.

Lemma handshake_success_runs_commands_witness :
  exists st2 st3,
    acquired (Lab.bench 0 (-1)) 1
      ["qdl"; "prog.mbn"; "rawprogram0.xml"]%string 3 World.cooked st2 /\
    main (Lab.bench 0 (-1)) 1
      ["qdl"; "prog.mbn"; "rawprogram0.xml"]%string init = (Ret 0, st3) /\
    engine_events (trace st3) = [FirehoseRun 3; SaharaRun 3 "prog.mbn"].
Proof.
  assert (Ha : exists st2,
             acquired (Lab.bench 0 (-1)) 1
               ["qdl"; "prog.mbn"; "rawprogram0.xml"]%string
               3 World.cooked st2).
  { eexists. split; [reflexivity|]. eexists. split; reflexivity. }
  destruct Ha as [st2 Ha].
  destruct (handshake_success_runs_commands _ _ _ _ _ _ Ha
              ltac:(simpl; lia)) as (warning & st3 & M & _ & En).
  exists st2, st3. split; [exact Ha|]. split; [exact M|exact En].
Defined.

(** ** The exit status *)

(** X6.  A run that has ended has exit status 0 or 1, and the status is 0
    exactly for the runs that got hold of the transport: every failure
    before that point gives 1, and no failure after it changes the 0. *)
Theorem exit_status_zero_iff_acquired (env : Env) (fuel : nat)
        (argv : list string) :
  (exit_status (main env fuel argv init) = None \/
   exit_status (main env fuel argv init) = Some 0 \/
   exit_status (main env fuel argv init) = Some 1) /\
  (exit_status (main env fuel argv init) = Some 0 <->
   exists fd old st2, acquired env fuel argv fd old st2).
Proof.
  destruct (main env fuel argv init) as [r st] eqn:H.
  destruct (main_cases _ _ _ _ _ H)
    as [(fd & old & st2 & Ha & E)|(NA & R & _)].
  - destruct (acquired_trace _ _ _ _ _ _ Ha)
      as (_ & _ & _ & _ & _ & _ & Hfd & _).
    destruct (run_engines_spec env (prog_mbn_of argv) fd old st2 Hfd)
      as (engines & warning & E' & _).
    rewrite E' in E. injection E as <- _. unfold exit_status. cbn [fst].
    split; [right; now left|].
    split; [intros _; now exists fd, old, st2|reflexivity].
  - unfold exit_status. cbn [fst].
    destruct R as [-> | [-> | ->]].
    + split; [right; now right|].
      split; [discriminate|]. intros (fd & old & st2 & Ha).
      now destruct (NA _ _ _ Ha).
    + split; [right; now right|].
      split; [discriminate|]. intros (fd & old & st2 & Ha).
      now destruct (NA _ _ _ Ha).
    + split; [now left|].
      split; [discriminate|]. intros (fd & old & st2 & Ha).
      now destruct (NA _ _ _ Ha).
Qed.

(** ** The command line *)

Lemma has_debug_shape (argv : list string) :
  has_debug argv = true <->
  exists name rest, argv = name :: "--debug"%string :: rest.
Proof.
  unfold has_debug. split.
  - intros H. apply andb_true_iff in H. destruct H as [_ H].
    rewrite strcmp_eqb in H. apply String.eqb_eq in H.
    destruct argv as [|name [|flag rest]]; simpl in H; try discriminate.
    subst flag. now exists name, rest.
  - intros (name & rest & ->). rewrite strcmp_eqb. simpl length.
    apply andb_true_iff. split; [apply Z.leb_le; lia|reflexivity].
Qed.

(** X7.  The flag [qdl_debug] is set at the end of a run exactly when the
    argument right after the program name is [--debug]; the flag in any
    other place does not set it, and nothing else in [qdl.c] changes it. *)
Theorem debug_flag_leads (env : Env) (fuel : nat) (argv : list string) :
  qdl_debug (snd (main env fuel argv init)) = true <->
  exists name rest, argv = name :: "--debug"%string :: rest.
Proof.
  destruct (main env fuel argv init) as [r st] eqn:H. cbn [snd].
  destruct (main_trace_parts _ _ _ _ _ H) as [D _]. rewrite D.
  apply has_debug_shape.
Qed.

(** X8.  When fewer than two arguments follow the program name and the
    leading [--debug], if there is one, [main] prints the usage line and
    returns 1, and that line is all the run does: no file is parsed and
    nothing is scanned.  With two or more, [main] does not return
    through the usage branch. *)
Theorem usage_when_too_few_arguments (env : Env) (fuel : nat)
        (argv : list string) :
  ((length argv < (if has_debug argv then 4 else 3))%nat ->
   main env fuel argv init
   = (Ret 1, mk_state (has_debug argv) [Stderr (usage env)]))
  /\
  (((if has_debug argv then 4 else 3) <= length argv)%nat ->
   fst (main env fuel argv init) <> Ret 1).
Proof.
  assert (U : usage_ok argv
              = negb (length argv <? (if has_debug argv then 4 else 3))%nat).
  { unfold usage_ok, shifted. destruct (has_debug argv) eqn:D.
    - apply has_debug_shape in D. destruct D as (name & rest & ->).
      cbn [tl length]. f_equal.
      destruct (Nat.ltb_spec (S (S (length rest))) 4);
        [apply Z.ltb_lt|apply Z.ltb_ge]; lia.
    - f_equal.
      destruct (Nat.ltb_spec (length argv) 3);
        [apply Z.ltb_lt|apply Z.ltb_ge]; lia. }
  split.
  - intros H. apply main_usage. rewrite U.
    apply negb_false_iff. now apply Nat.ltb_lt.
  - intros H.
    assert (U' : usage_ok argv = true).
    { rewrite U. apply negb_true_iff. apply Nat.ltb_ge. exact H. }
    destruct (main env fuel argv init) as [r st] eqn:M. cbn [fst].
    destruct (main_trace_parts _ _ _ _ _ M)
      as (_ & fin & dev & loading & _ & _ & _ & _ & D).
    destruct D as [(Uf & _)|(_ & r1 & st1 & _ & _ & D)]; [congruence|].
    destruct D as [(_ & -> & _)|(_ & r2 & st2 & _ & _ & D)]; [discriminate|].
    destruct D as [(fd & old & _ & ->)|(R & _ & He & Hb)]; [discriminate|].
    destruct R as [R|R]; [rewrite (He R)|rewrite (Hb R)]; discriminate.
Qed.

Lemma usage_when_too_few_arguments_witness :
  main (World.world 0 0 0 0) 1 ["qdl"; "--debug"; "prog.mbn"]%string init
  = (Ret 1, mk_state true [Stderr (usage (World.world 0 0 0 0))])
  /\ fst (main World.deserted 1
            ["qdl"; "--debug"; "prog.mbn"; "patch0.xml"]%string init)
     <> Ret 1.
Proof.
  split.
  - exact (proj1 (usage_when_too_few_arguments (World.world 0 0 0 0) 1
                    ["qdl"; "--debug"; "prog.mbn"]%string)
             ltac:(simpl; lia)).
  - exact (proj2 (usage_when_too_few_arguments World.deserted 1
                    ["qdl"; "--debug"; "prog.mbn"; "patch0.xml"]%string)
             ltac:(simpl; lia)).
Defined.

(** ** The order of the work *)

Lemma classified_app (a b : list event) :
  classified (a ++ b) = classified b ++ classified a.
Proof. unfold classified. now rewrite rev_app_distr, flat_map_app. Qed.

Lemma loaded_app (a b : list event) : loaded (a ++ b) = loaded b ++ loaded a.
Proof. unfold loaded. now rewrite rev_app_distr, flat_map_app. Qed.

Lemma no_load_action (P : event -> Prop) (evs : list event) :
  (forall e, P e -> load_action e = false) ->
  Forall P evs -> classified evs = [] /\ loaded evs = [].
Proof.
  intros HP F. induction F as [|e evs He F [IH1 IH2]]; [now split|].
  rewrite classified_cons, loaded_cons, IH1, IH2.
  specialize (HP e He). now destruct e.
Qed.

Lemma finish_event_no_load (e : event) :
  finish_event e -> load_action e = false.
Proof. now destruct 1. Qed.

Lemma tty_open_event_no_load (e : event) :
  tty_open_event e -> load_action e = false.
Proof.
  intros [H|H]; [destruct H as [e H| |]; [now destruct H|..]|now destruct H];
    reflexivity.
Qed.

(** How far the loop over the descriptor files gets: the files classified
    are a beginning of the list, in its order; each of them has been
    loaded too, but for the last one when the loop ended at it before
    its loader was called. *)
Lemma load_files_progress (env : Env) (files : list string) :
  forall st r st',
    load_files env files st = (r, st') ->
    exists done rest,
      files = done ++ rest /\
      classified (trace st') = classified (trace st) ++ done /\
      (loaded (trace st') = loaded (trace st) ++ done \/
       exists d f, done = d ++ [f] /\
                   loaded (trace st') = loaded (trace st) ++ d) /\
      (r = Ret tt ->
       rest = [] /\ loaded (trace st') = loaded (trace st) ++ done).
Proof.
  induction files as [|file files IH]; intros st r st' H.
  - injection H as <- <-. exists [], []. rewrite !app_nil_r.
    split; [reflexivity|]. split; [reflexivity|]. split; [now left|].
    intros _. now split.
  - simpl in H. unfold bind in H. rewrite load_file_eq in H. cbv zeta in H.
    assert (Stop : forall evs,
               st' = mk_state (qdl_debug st) (evs ++ trace st) ->
               r <> Ret tt ->
               classified evs = [file] ->
               loaded evs = [] \/ loaded evs = [file] ->
               exists done rest,
                 file :: files = done ++ rest /\
                 classified (trace st') = classified (trace st) ++ done /\
                 (loaded (trace st') = loaded (trace st) ++ done \/
                  exists d f, done = d ++ [f] /\
                              loaded (trace st') = loaded (trace st) ++ d) /\
                 (r = Ret tt ->
                  rest = [] /\ loaded (trace st') = loaded (trace st) ++ done)).
    { intros evs -> Hr C Lo. exists [file], files. cbn [trace].
      rewrite classified_app, loaded_app, C.
      split; [reflexivity|]. split; [reflexivity|].
      split; [|intros E; now destruct (Hr E)].
      destruct Lo as [-> | ->]; [right|now left].
      exists [], file. now rewrite app_nil_r. }
    assert (Go : forall s,
               load_files env files s = (r, st') ->
               classified (trace s) = classified (trace st) ++ [file] ->
               loaded (trace s) = loaded (trace st) ++ [file] ->
               exists done rest,
                 file :: files = done ++ rest /\
                 classified (trace st') = classified (trace st) ++ done /\
                 (loaded (trace st') = loaded (trace st) ++ done \/
                  exists d f, done = d ++ [f] /\
                              loaded (trace st') = loaded (trace st) ++ d) /\
                 (r = Ret tt ->
                  rest = [] /\ loaded (trace st') = loaded (trace st) ++ done)).
    { intros s Hs C Lo.
      destruct (IH _ _ _ Hs) as (done & rest & -> & C' & Lo' & R').
      exists (file :: done), rest. rewrite C', C, <- app_assoc.
      split; [reflexivity|]. split; [reflexivity|]. split.
      - destruct Lo' as [Lo'|(d & f & -> & Lo')]; rewrite Lo', Lo, <- app_assoc;
          [now left|right]. now exists (file :: d), f.
      - intros E. destruct (R' E) as [-> Lo'']. split; [reflexivity|].
        now rewrite Lo'', Lo, <- app_assoc. }
    destruct (xmlReadFile env st file) as [root|].
    2:{ injection H as <- <-.
        eapply (Stop [_; _; XmlReadFile file]);
          [reflexivity|discriminate|reflexivity|now left]. }
    destruct (String.eqb root "patches").
    { destruct (patch_load env _ file <? 0).
      - injection H as <- <-.
        eapply (Stop [_; PatchLoad file; XmlReadFile file]);
          [reflexivity|discriminate|reflexivity|now right].
      - apply (Go _ H); simpl;
          rewrite ?classified_cons, ?loaded_cons; simpl;
          now rewrite ?app_nil_r. }
    destruct (String.eqb root "data").
    { destruct (program_load env _ file <? 0).
      - injection H as <- <-.
        eapply (Stop [_; ProgramLoad file; XmlReadFile file]);
          [reflexivity|discriminate|reflexivity|now right].
      - apply (Go _ H); simpl;
          rewrite ?classified_cons, ?loaded_cons; simpl;
          now rewrite ?app_nil_r. }
    destruct (String.eqb root "contents"); injection H as <- <-;
      eapply (Stop [_; XmlReadFile file]);
      solve [reflexivity|discriminate|now left].
Qed.

(** X9.  In every run the descriptor files are taken strictly in the order
    of the command line, each at most once: the files parsed are a
    beginning of that list, and the files handed to a loader are the same
    files, except that the last parsed file is missing when the run ended
    at it before its loader was called.  A run that ends with status 0 has
    parsed and loaded every descriptor file exactly once; the firmware
    image is not among them. *)
Theorem descriptor_files_in_order (env : Env) (fuel : nat)
        (argv : list string) :
  exists done rest,
    descriptor_files argv = done ++ rest /\
    classified (trace (snd (main env fuel argv init))) = done /\
    (loaded (trace (snd (main env fuel argv init))) = done \/
     exists d f, done = d ++ [f] /\
                 loaded (trace (snd (main env fuel argv init))) = d) /\
    (exit_status (main env fuel argv init) = Some 0 ->
     rest = [] /\ loaded (trace (snd (main env fuel argv init))) = done).
Proof.
  destruct (main env fuel argv init) as [r st] eqn:H.
  unfold exit_status. cbn [snd fst].
  destruct (main_trace_parts _ _ _ _ _ H)
    as (_ & fin & dev & loading & -> & Ff & Fd & _ & D).
  destruct (no_load_action _ _ finish_event_no_load Ff) as [Cf Lf].
  destruct (no_load_action _ _ tty_open_event_no_load Fd) as [Cd Ld].
  rewrite !classified_app, !loaded_app, Cf, Lf, Cd, Ld, !app_nil_r.
  destruct D as [(_ & -> & _ & _ & ->)|(_ & r1 & st1 & L & <- & D)].
  - exists [], (descriptor_files argv).
    split; [reflexivity|]. split; [reflexivity|]. split; [now left|].
    discriminate.
  - destruct (load_files_progress _ _ _ _ _ L)
      as (done & rest & E & C & Lo & R).
    rewrite start_after_init in C, Lo, R. cbn [classified loaded rev flat_map app]
      in C, Lo, R.
    exists done, rest. split; [exact E|]. split; [exact C|].
    split; [exact Lo|].
    destruct D as [(-> & -> & _)|(-> & _)]; [discriminate|].
    intros _. now apply R.
Qed.

Lemma startup_event_no_device (env : Env) (e : event) :
  startup_event env e -> device_event e = false.
Proof. intros [->|H]; [reflexivity|now destruct H]. Qed.

(** X10.  In every run all parsing and loading of descriptor files comes
    before any action on the device side: the trace is a start-up part
    without any device action, followed by a part without any parsing or
    loading.  No file is touched once the first scan of sysfs has
    begun. *)
Theorem loading_precedes_device (env : Env) (fuel : nat)
        (argv : list string) :
  exists later startup,
    trace (snd (main env fuel argv init)) = later ++ startup /\
    (forall e, In e startup -> device_event e = false) /\
    (forall e, In e later -> load_action e = false).
Proof.
  destruct (main env fuel argv init) as [r st] eqn:H. cbn [snd].
  destruct (main_trace_parts _ _ _ _ _ H)
    as (_ & fin & dev & loading & -> & Ff & Fd & Fl & _).
  exists (fin ++ dev), loading. split; [now rewrite app_assoc|].
  split.
  - intros e I. rewrite Forall_forall in Fl.
    exact (startup_event_no_device env e (Fl e I)).
  - intros e I. apply in_app_or in I. rewrite Forall_forall in Ff, Fd.
    destruct I as [I|I];
      [exact (finish_event_no_load e (Ff e I))
      |exact (tty_open_event_no_load e (Fd e I))].
Qed.

(** ** Saving and restoring the line *)

Lemma line_config_skip (c0 : termios) (evs tr : list event) :
  (forall e, In e evs -> line_event e = false) ->
  line_config c0 (evs ++ tr) = line_config c0 tr.
Proof.
  induction evs as [|e evs IH]; intros H; [reflexivity|].
  assert (He : line_event e = false) by (apply H; now left).
  cbn [app line_config]. destruct e; try discriminate;
    apply IH; intros e' I; apply H; now right.
Qed.

Lemma open_event_never_closes (e : event) (fd : Z) :
  open_event e -> e <> Close fd.
Proof. destruct 1; discriminate. Qed.

(** What [tty_setup] did when it returns: the open and the [tcgetattr]
    both succeeded, and [old] is what [tcgetattr] answered. *)
Lemma tty_setup_saved (env : Env) (p : string) (s : state)
      (fd : Z) (old : termios) (st' : state) :
  tty_setup env p s = (Ret (fd, old), st') ->
  fd = sys_open env s p /\
  exists r, tcgetattr env (log (Open p) s) fd = (r, old) /\ 0 <= r.
Proof.
  unfold tty_setup. run.
  destruct (sys_open env s p <? 0); simpl; [discriminate|].
  destruct (tcgetattr env (log (Open p) s) (sys_open env s p))
    as [rg old'] eqn:G.
  destruct (rg <? 0) eqn:Hg; simpl; [discriminate|].
  match goal with
  | |- context [tcsetattr env ?st ?fd qdl_tios <? 0] =>
      destruct (tcsetattr env st fd qdl_tios <? 0)
  end; simpl; [discriminate|].
  intros H. injection H as <- <- _. split; [reflexivity|].
  exists rg. split; [exact G|]. now apply Z.ltb_ge.
Qed.

(** X11.  On a tty that keeps what it is told and started with the
    configuration [c0], a run that holds the transport saves exactly [c0],
    has [qdl_tios] in force while the engines run, and leaves the tty with
    [c0] in force again when [main] returns. *)
Theorem restore_round_trip (env : Env) (c0 : termios) (fuel : nat)
        (argv : list string) (fd : Z) (old : termios) (st2 : state) :
  faithful_tty env c0 ->
  acquired env fuel argv fd old st2 ->
  old = c0 /\
  line_config c0 (trace st2) = qdl_tios /\
  exit_status (main env fuel argv init) = Some 0 /\
  line_config c0 (trace (snd (main env fuel argv init))) = c0.
Proof.
  intros [Hget Hset] Ha.
  destruct (acquired_trace _ _ _ _ _ _ Ha)
    as (loading & w & p & Hst2 & F1 & F2 & Hfd & _).
  assert (Ho : old = c0).
  { destruct Ha as (_ & st1 & L & T).
    destruct (load_files_emits env _ _ _ _ L) as (ld & [A1 _] & Fl).
    rewrite start_after_init, app_nil_r in A1.
    destruct (tty_open_spec env fuel _ _ _ _ T)
      as (w' & s & [A2 _] & Fw & [[_ [C|C]]|C]); try discriminate.
    destruct C as (p0 & w0 & s0 & en & p' & _ & _ & _ & _ & S).
    destruct (tty_setup_saved _ _ _ _ _ _ S) as (_ & r & G & Hr).
    rewrite (Hget _ _ _ _ G Hr). cbn [log trace line_config].
    rewrite A2, A1.
    rewrite line_config_skip.
    - rewrite <- (app_nil_r ld). apply (line_config_skip c0 ld []).
      intros e I.
      rewrite Forall_forall in Fl. exact (load_event_not_line e (Fl e I)).
    - intros e I. rewrite Forall_forall in Fw.
      exact (locate_event_not_line e (Fw e I)). }
  split; [exact Ho|]. split; [now rewrite Hst2|].
  destruct (run_engines_spec env (prog_mbn_of argv) fd old st2 Hfd)
    as (engines & warning & E & He & Hw).
  destruct Ha as (U & st1 & L & T).
  assert (M : main env fuel argv init
              = (Ret 0, mk_state (qdl_debug st2)
                          (Close fd :: warning ++ Tcsetattr fd old
                           :: engines ++ trace st2))).
  { rewrite (main_phases _ _ _ U).
    rewrite (bind_ret _ _ _ _ _ L), (bind_ret _ _ _ _ _ T). exact E. }
  rewrite M. split; [reflexivity|]. cbn [snd trace line_config].
  rewrite line_config_skip; [exact Ho|].
  intros e I. destruct (tcsetattr env _ fd old <? 0); subst warning;
    [destruct I as [<-|[]]; reflexivity|destruct I].
Qed.

Lemma restore_round_trip_witness :
  exists st2,
    acquired (Lab.bench 0 0) 1 ["qdl"; "prog.mbn"; "patch0.xml"]%string
      3 World.cooked st2 /\
    line_config World.cooked (trace st2) = qdl_tios /\
    line_config World.cooked
      (trace (snd (main (Lab.bench 0 0) 1
                     ["qdl"; "prog.mbn"; "patch0.xml"]%string init)))
    = World.cooked.
Proof.
  assert (Hf : faithful_tty (Lab.bench 0 0) World.cooked).
  { split.
    - intros st fd r c G _. simpl in G. now injection G as _ <-.
    - intros st fd tios. simpl. lia. }
  assert (Ha : exists st2,
             acquired (Lab.bench 0 0) 1
               ["qdl"; "prog.mbn"; "patch0.xml"]%string 3 World.cooked st2).
  { eexists. split; [reflexivity|]. eexists. split; reflexivity. }
  destruct Ha as [st2 Ha].
  destruct (restore_round_trip _ _ _ _ _ _ _ Hf Ha) as (_ & Q & _ & R).
  exists st2. split; [exact Ha|]. split; [exact Q|exact R].
Defined.

(** X12.  [tty_setup] flushes the input queue and changes the line
    configuration only on a descriptor that it opened successfully and
    whose configuration it could save first, and what it installs is
    [qdl_tios].  It never closes the descriptor, whether it returns or
    ends the process. *)
Theorem line_saved_before_changed (env : Env) (p : string) (s : state) :
  exists evs,
    after s evs (snd (tty_setup env p s)) /\
    (forall fd, ~ In (Close fd) evs) /\
    (forall fd,
        In (Tcflush fd) evs \/ (exists tios, In (Tcsetattr fd tios) evs) ->
        fd = sys_open env s p /\ 0 <= fd /\
        0 <= fst (tcgetattr env (log (Open p) s) fd) /\
        forall tios, In (Tcsetattr fd tios) evs -> tios = qdl_tios).
Proof.
  destruct (tty_setup env p s) as [r st'] eqn:H. cbn [snd].
  destruct (tty_setup_emits env p _ _ _ H) as (evs & A & F).
  exists evs. split; [exact A|]. split.
  { intros fd I. rewrite Forall_forall in F.
    exact (open_event_never_closes _ fd (F _ I) eq_refl). }
  revert H A F. unfold tty_setup. run.
  destruct (sys_open env s p <? 0) eqn:O; simpl.
  { intros H [A _] _. injection H as _ <-. simpl in A.
    match type of A with
    | ?a :: ?b :: trace s = _ =>
        change (a :: b :: trace s) with ([a; b] ++ trace s) in A
    end.
    apply app_inv_tail in A. subst evs. intros fd [I|[t I]]; simpl in I;
      repeat (destruct I as [I|I]; [discriminate|]); contradiction. }
  apply Z.ltb_ge in O.
  destruct (tcgetattr env (log (Open p) s) (sys_open env s p))
    as [rg old] eqn:G.
  destruct (rg <? 0) eqn:Hg; simpl.
  { intros H [A _] _. injection H as _ <-. simpl in A.
    match type of A with
    | ?a :: ?b :: ?c :: trace s = _ =>
        change (a :: b :: c :: trace s) with ([a; b; c] ++ trace s) in A
    end.
    apply app_inv_tail in A. subst evs. intros fd [I|[t I]]; simpl in I;
      repeat (destruct I as [I|I]; [discriminate|]); contradiction. }
  apply Z.ltb_ge in Hg.
  assert (K : forall evs',
             (forall fd,
                 In (Tcflush fd) evs' \/
                 (exists tios, In (Tcsetattr fd tios) evs') ->
                 fd = sys_open env s p) ->
             (forall fd tios, In (Tcsetattr fd tios) evs' -> tios = qdl_tios) ->
             forall fd,
               In (Tcflush fd) evs' \/
               (exists tios, In (Tcsetattr fd tios) evs') ->
               fd = sys_open env s p /\ 0 <= fd /\
               0 <= fst (tcgetattr env (log (Open p) s) fd) /\
               forall tios, In (Tcsetattr fd tios) evs' -> tios = qdl_tios).
  { intros evs' Hfd Ht fd I. rewrite (Hfd fd I), G. cbn [fst].
    repeat split; try assumption. intros t It.
    apply (Ht (sys_open env s p)). exact It. }
  match goal with
  | |- context [tcsetattr env ?st ?fd qdl_tios <? 0] =>
      destruct (tcsetattr env st fd qdl_tios <? 0)
  end; simpl.
  - intros H [A _] _. injection H as _ <-. simpl in A.
    match type of A with
    | ?a :: ?b :: ?c :: ?d :: ?e :: trace s = _ =>
        change (a :: b :: c :: d :: e :: trace s)
          with ([a; b; c; d; e] ++ trace s) in A
    end.
    apply app_inv_tail in A. subst evs. apply K.
    + intros fd [I|[t I]]; simpl in I;
        repeat (destruct I as [I|I];
                [first [discriminate | now injection I]|]);
        contradiction.
    + intros fd t I. simpl in I.
      repeat (destruct I as [I|I];
              [first [discriminate | now injection I]|]);
        contradiction.
  - intros H [A _] _. injection H as _ <-. simpl in A.
    match type of A with
    | ?a :: ?b :: ?c :: ?d :: trace s = _ =>
        change (a :: b :: c :: d :: trace s)
          with ([a; b; c; d] ++ trace s) in A
    end.
    apply app_inv_tail in A. subst evs. apply K.
    + intros fd [I|[t I]]; simpl in I;
        repeat (destruct I as [I|I];
                [first [discriminate | now injection I]|]);
        contradiction.
    + intros fd t I. simpl in I.
      repeat (destruct I as [I|I];
              [first [discriminate | now injection I]|]);
        contradiction.
Qed.

Lemma line_saved_before_changed_witness :
  0 <= fst (tcgetattr (World.world 0 0 0 0)
              (log (Open "/dev/ttyUSB1") init) 3).
Proof.
  destruct (line_saved_before_changed (World.world 0 0 0 0)
              "/dev/ttyUSB1" init) as (evs & [A _] & _ & K).
  simpl in A. rewrite app_nil_r in A. subst evs.
  destruct (K 3 (or_introl (or_intror (or_introl eq_refl))))
    as (_ & _ & G & _).
  exact G.
Defined.

(** ** The pace of the retry loop *)

Lemma scans_app (a b : list event) : scans (a ++ b) = (scans a + scans b)%nat.
Proof. unfold scans. now rewrite filter_app, length_app. Qed.

Lemma open_events_quiet (evs : list event) :
  Forall open_event evs -> sleeps evs = O /\ notices evs = O /\ scans evs = O.
Proof.
  induction 1 as [|e evs He F (IH1 & IH2 & IH3)]; [now repeat split|].
  unfold sleeps, notices, scans in *. destruct He; simpl; now repeat split.
Qed.

Lemma scan_entry_no_opendir (len : nat) (de : dirent) (v : Z * string)
      (st : state) (r : result (Z * string)) (st' : state) :
  scan_entry len de v st = (r, st') -> scans (trace st') = scans (trace st).
Proof.
  unfold scan_entry, readat, warn. run.
  destruct (negb (strncmp (d_name de) "ttyUSB" 6 =? 0)); simpl;
    [intros H; now injection H as _ <-|].
  destruct (negb (d_opens de)); simpl; [intros H; now injection H as _ <-|].
  destruct (idVendor de); simpl; try (intros H; now injection H as _ <-).
  destruct (idProduct de); simpl; try (intros H; now injection H as _ <-).
  match goal with
  | |- context [if ?c then _ else _] => destruct c
  end; intros H; now injection H as _ <-.
Qed.

Lemma scan_no_opendir (len : nat) (entries : list dirent) :
  forall v st r st',
    scan len entries v st = (r, st') -> scans (trace st') = scans (trace st).
Proof.
  induction entries as [|de rest IH]; intros v st r st' H.
  - now injection H as _ <-.
  - simpl in H. unfold bind in H.
    destruct (scan_entry len de v st) as [[v'|c|] s1] eqn:E;
      pose proof (scan_entry_no_opendir _ _ _ _ _ _ E) as E1.
    + rewrite (IH _ _ _ _ H). exact E1.
    + now injection H as _ <-.
    + now injection H as _ <-.
Qed.

(** One call of [find_qdl_tty] opens [/sys/class/tty] once, and neither
    sleeps nor prints the notice. *)
Lemma find_qdl_tty_one_scan (env : Env) (path : string) (len : nat)
      (st : state) (r : result (Z * string)) (st' : state) :
  find_qdl_tty env path len st = (r, st') ->
  exists evs,
    after st evs st' /\
    scans evs = 1%nat /\ sleeps evs = O /\ notices evs = O.
Proof.
  intros H.
  destruct (find_qdl_tty_scans env path len _ _ _ H) as (evs & A & F).
  destruct (scan_events_quiet _ F) as [Sl N].
  exists evs. split; [exact A|]. split; [|now split].
  assert (Sc : scans (trace st') = S (scans (trace st))).
  { revert H. unfold find_qdl_tty. unfold bind at 1. unfold call at 1.
    destruct (sys_class_tty env st) as [| |entries].
    - run. intros H. now injection H as _ <-.
    - run. intros H. now injection H as _ <-.
    - unfold bind at 1.
      destruct (scan len entries (- ENOENT, path)
                  (log (OpenDir "/sys/class/tty") st)) as [[v|c|] s1] eqn:E;
        pose proof (scan_no_opendir _ _ _ _ _ _ E) as E1;
        run; intros H; injection H as _ <-; exact E1. }
  destruct A as [A _]. rewrite A, scans_app in Sc. lia.
Qed.

(** X13.  However a call of [tty_open] ends, it has printed the notice as
    often as it has slept, every sleep was of one second, and it has
    scanned sysfs once more than it has slept -- or exactly as often when
    it is still waiting.  Scans are never made back to back. *)
Theorem one_notice_and_sleep_per_failed_scan (env : Env) (fuel : nat) :
  forall path st,
  exists evs,
    after st evs (snd (tty_open env fuel path st)) /\
    notices evs = sleeps evs /\
    (forall n, In (Sleep n) evs -> n = 1) /\
    scans evs
    = (sleeps evs
       + match fst (tty_open env fuel path st) with
         | Blocked => 0
         | _ => 1
         end)%nat.
Proof.
  induction fuel as [|fuel IH]; intros path st.
  - exists []. simpl. split; [apply after_refl|]. now repeat split.
  - destruct (tty_open env (S fuel) path st) as [r st'] eqn:H.
    cbn [fst snd]. simpl in H. unfold bind at 1 in H.
    destruct (find_qdl_tty env path PATH_MAX st) as [rf s1] eqn:F.
    destruct (find_qdl_tty_one_scan _ _ _ _ _ _ F)
      as (evs1 & A1 & Sc1 & Sl1 & N1).
    destruct (find_qdl_tty_scans env path PATH_MAX _ _ _ F)
      as (evs1' & A1' & F1).
    assert (evs1' = evs1) as ->.
    { destruct A1 as [A1 _], A1' as [A1' _]. rewrite A1 in A1'.
      now apply app_inv_tail in A1'. }
    assert (Q1 : forall n, In (Sleep n) evs1 -> n = 1).
    { intros n I. rewrite Forall_forall in F1. specialize (F1 _ I).
      inversion F1. }
    destruct rf as [[r0 p]|c|].
    + destruct (r0 <? 0).
      * assert (H' : tty_open env fuel p (log (Sleep 1) (log waiting s1))
                     = (r, st')) by exact H.
        destruct (IH p (log (Sleep 1) (log waiting s1)))
          as (evs & A & N & Q & Sc).
        rewrite H' in A, Sc. cbn [fst snd] in A, Sc.
        exists (evs ++ [Sleep 1; waiting] ++ evs1).
        split.
        { eapply after_trans; [|exact A].
          eapply after_trans; [exact A1|]. now split. }
        split; [|split].
        -- rewrite !notices_app, !sleeps_app, N, N1, Sl1.
           unfold notices, sleeps. simpl. lia.
        -- intros n I. apply in_app_or in I. destruct I as [I|I]; [auto|].
           apply in_app_or in I. destruct I as [I|I]; [|auto].
           destruct I as [I|[I|[]]]; [now injection I|discriminate].
        -- rewrite !scans_app, !sleeps_app, Sc, Sc1, Sl1.
           unfold scans, sleeps. simpl. lia.
      * destruct (tty_setup_emits env p _ _ _ H) as (evs & A & Fo).
        destruct (open_events_quiet _ Fo) as (Sl & N & Sc).
        exists (evs ++ evs1). split; [eapply after_trans; eassumption|].
        split; [rewrite notices_app, sleeps_app; lia|]. split.
        -- intros n I. apply in_app_or in I. destruct I as [I|I]; [|auto].
           rewrite Forall_forall in Fo. specialize (Fo _ I). inversion Fo.
        -- rewrite scans_app, sleeps_app, Sc, Sc1, Sl, Sl1.
           destruct (tty_setup_spec _ _ _ _ _ H)
             as [(fd & old & -> & _)|[-> _]]; reflexivity.
    + injection H as <- <-. exists evs1. split; [exact A1|].
      split; [lia|]. split; [exact Q1|]. rewrite Sc1, Sl1. reflexivity.
    + injection H as <- <-. exfalso.
      destruct (find_qdl_tty_cases _ _ _ _ _ _ F)
        as [(en & _ & E)|[(E & _)|(E & _)]]; discriminate.
Qed.

(** ** Which loader gets a file *)

(** X14.  One round of the loop over the descriptor files calls at most
    one loader, on the file it has just parsed: [patch_load] only for a
    root element [patches], [program_load] only for a root element [data].
    The round ends normally exactly when that loader was called and did
    not answer a negative value. *)
Theorem loader_follows_kind (env : Env) (file : string) (st : state) :
  exists evs,
    after st evs (snd (load_file env file st)) /\
    (length (loaded evs) <= 1)%nat /\
    (forall f, In (PatchLoad f) evs ->
               f = file /\ xmlReadFile env st file = Some "patches"%string) /\
    (forall f, In (ProgramLoad f) evs ->
               f = file /\ xmlReadFile env st file = Some "data"%string) /\
    (fst (load_file env file st) = Ret tt <->
     (In (PatchLoad file) evs /\
      0 <= patch_load env (log (XmlReadFile file) st) file)
     \/
     (In (ProgramLoad file) evs /\
      0 <= program_load env (log (XmlReadFile file) st) file)).
Proof.
  rewrite load_file_eq. cbv zeta.
  assert (K : forall evs : list event,
             (forall f, ~ In (PatchLoad f) evs) ->
             (forall f, ~ In (ProgramLoad f) evs) ->
             loaded evs = [] ->
             forall r : result unit, r <> Ret tt ->
             (length (loaded evs) <= 1)%nat /\
             (forall f, In (PatchLoad f) evs ->
                        f = file /\
                        xmlReadFile env st file = Some "patches"%string) /\
             (forall f, In (ProgramLoad f) evs ->
                        f = file /\
                        xmlReadFile env st file = Some "data"%string) /\
             (r = Ret tt <->
              (In (PatchLoad file) evs /\
               0 <= patch_load env (log (XmlReadFile file) st) file)
              \/
              (In (ProgramLoad file) evs /\
               0 <= program_load env (log (XmlReadFile file) st) file))).
  { intros evs N1 N2 Lo r Hr. rewrite Lo. split; [simpl; lia|].
    split; [intros f I; now destruct (N1 f)|].
    split; [intros f I; now destruct (N2 f)|].
    split; [intros E; now destruct (Hr E)|].
    intros [[I _]|[I _]]; [now destruct (N1 file)|now destruct (N2 file)]. }
  destruct (xmlReadFile env st file) as [root|] eqn:X.
  2:{ eexists [_; _; _]. split; [now split|]. cbn [fst].
      apply K; try discriminate; try reflexivity;
        intros f I; simpl in I;
        repeat (destruct I as [I|I]; [discriminate|]); contradiction. }
  destruct (String.eqb_spec root "patches") as [->|N1].
  { destruct (patch_load env (log (XmlReadFile file) st) file <? 0) eqn:P.
    - eexists [_; _; _]. split; [now split|]. cbn [fst].
      split; [simpl; lia|].
      split; [intros f I; simpl in I;
              destruct I as [I|[I|[I|[]]]]; try discriminate;
              now injection I as <-|].
      split; [intros f I; simpl in I;
              repeat (destruct I as [I|I]; [discriminate|]); contradiction|].
      split; [discriminate|].
      apply Z.ltb_lt in P. intros [[_ G]|[I _]]; [lia|].
      simpl in I. repeat (destruct I as [I|I]; [discriminate|]).
      contradiction.
    - eexists [_; _]. split; [now split|]. cbn [fst].
      split; [simpl; lia|].
      split; [intros f I; simpl in I;
              destruct I as [I|[I|[]]]; try discriminate;
              now injection I as <-|].
      split; [intros f I; simpl in I;
              repeat (destruct I as [I|I]; [discriminate|]); contradiction|].
      split; [intros _|reflexivity].
      left. split; [now left|now apply Z.ltb_ge]. }
  destruct (String.eqb_spec root "data") as [->|N2].
  { destruct (program_load env (log (XmlReadFile file) st) file <? 0) eqn:P.
    - eexists [_; _; _]. split; [now split|]. cbn [fst].
      split; [simpl; lia|].
      split; [intros f I; simpl in I;
              repeat (destruct I as [I|I]; [discriminate|]); contradiction|].
      split; [intros f I; simpl in I;
              destruct I as [I|[I|[I|[]]]]; try discriminate;
              now injection I as <-|].
      split; [discriminate|].
      apply Z.ltb_lt in P. intros [[I _]|[_ G]]; [|lia].
      simpl in I. repeat (destruct I as [I|I]; [discriminate|]).
      contradiction.
    - eexists [_; _]. split; [now split|]. cbn [fst].
      split; [simpl; lia|].
      split; [intros f I; simpl in I;
              repeat (destruct I as [I|I]; [discriminate|]); contradiction|].
      split; [intros f I; simpl in I;
              destruct I as [I|[I|[]]]; try discriminate;
              now injection I as <-|].
      split; [intros _|reflexivity].
      right. split; [now left|now apply Z.ltb_ge]. }
  destruct (String.eqb root "contents");
    (eexists [_; _]; split; [now split|]; cbn [fst];
     apply K; try discriminate; try reflexivity;
     intros f I; simpl in I;
     repeat (destruct I as [I|I]; [discriminate|]); contradiction).
Qed.
